(** * Parsel: the document-to-CSV extractor

    A shallow embedding of the React front end (the application reducer,
    the upload component, the processing view and the results view) and of
    the extraction core as its specification describes it, with the
    properties of the specification stated and settled over them.

    Conventions of the embedding:
    - a JavaScript value is a [JS.val]; a number is an IEEE 754 binary64
      float (Rocq's primitive [float]), a string is a sequence of code
      units below 256;
    - a JavaScript object is its list of own enumerable properties, in the
      order [Object.keys] lists them (array indices first, ascending, then
      the other keys in insertion order);
    - a component's effects (dispatches, requests, navigation) are the
      trace it returns. *)

From Stdlib Require Import ZArith NArith QArith Qminmax List String Ascii Bool Lia.
From Stdlib Require Import DecimalString Floats Permutation.
Import ListNotations.

Set Warnings "-register-all,-inexact-float".

Local Open Scope string_scope.
Local Open Scope list_scope.

(** ** JavaScript values *)

Module JS.

(** A browser [File]: what the components read of it. *)
Record File : Type := mkFile {
  file_name : string;
  file_type : string;
  file_size : Z
}.

Inductive val : Type :=
| VUndef
| VNull
| VBool (b : bool)
| VNum (x : float)
| VStr (s : string)
| VArr (xs : list val)
| VObj (props : list (string * val))
| VFile (f : File).

Definition obj : Type := list (string * val).

(** [ToBoolean]. *)
Definition truthy (v : val) : bool :=
  match v with
  | VUndef | VNull => false
  | VBool b => b
  | VNum x => negb (PrimFloat.eqb x 0 || negb (PrimFloat.eqb x x))
  | VStr s => negb (String.eqb s "")
  | VArr _ | VObj _ | VFile _ => true
  end.

(** The canonical decimal name of an array index. *)
Definition index_name (n : N) : string :=
  NilZero.string_of_uint (N.to_uint n).

(** A property key is an array index when it is the canonical decimal
    name of an integer below 2^32 - 1. *)
Definition array_index (k : string) : option N :=
  match NilZero.uint_of_string k with
  | Some u =>
      let n := N.of_uint u in
      if String.eqb (index_name n) k && N.ltb n 4294967295
      then Some n else None
  | None => None
  end.

Fixpoint obj_get (k : string) (o : obj) : option val :=
  match o with
  | [] => None
  | (k', v) :: o' => if String.eqb k k' then Some v else obj_get k o'
  end.

Definition obj_has (k : string) (o : obj) : bool :=
  match obj_get k o with Some _ => true | None => false end.

Fixpoint obj_replace (k : string) (v : val) (o : obj) : obj :=
  match o with
  | [] => []
  | (k', v') :: o' =>
      if String.eqb k k' then (k, v) :: o'
      else (k', v') :: obj_replace k v o'
  end.

(** A new array-index key goes after the smaller indices and before
    everything else. *)
Fixpoint obj_insert_index (n : N) (k : string) (v : val) (o : obj) : obj :=
  match o with
  | [] => [(k, v)]
  | (k', v') :: o' =>
      match array_index k' with
      | Some m =>
          if N.ltb m n then (k', v') :: obj_insert_index n k v o'
          else (k, v) :: o
      | None => (k, v) :: o
      end
  end.

(** [o[k] = v] on a copy: an existing key keeps its place, a new one is
    added where [Object.keys] will list it. *)
Definition obj_set (k : string) (v : val) (o : obj) : obj :=
  if obj_has k o then obj_replace k v o
  else match array_index k with
       | Some n => obj_insert_index n k v o
       | None => o ++ [(k, v)]
       end.

(** [{...target, ...source}]. *)
Definition obj_spread (target source : obj) : obj :=
  fold_left (fun acc kv => obj_set (fst kv) (snd kv) acc) source target.

Definition obj_keys (o : obj) : list string := map fst o.
Definition obj_values (o : obj) : list val := map snd o.

Fixpoint indexed_from (n : N) (xs : list val) : obj :=
  match xs with
  | [] => []
  | x :: xs' => (index_name n, x) :: indexed_from (N.succ n) xs'
  end.

Fixpoint code_units (s : string) : list val :=
  match s with
  | EmptyString => []
  | String c s' => VStr (String c EmptyString) :: code_units s'
  end.

(** The own enumerable properties a spread copies. *)
Definition own_props (v : val) : obj :=
  match v with
  | VObj o => o
  | VArr xs => indexed_from 0 xs
  | VStr s => indexed_from 0 (code_units s)
  | VUndef | VNull | VBool _ | VNum _ | VFile _ => []
  end.

(** [o.k] on an object: a missing property reads as [undefined]. *)
Definition obj_read (k : string) (o : obj) : val :=
  match obj_get k o with Some v => v | None => VUndef end.

(** [v.k] for the property names the components read (none of them is
    [length] or a prototype property): [None] is the [TypeError] of
    reading a property of [undefined] or [null]. *)
Definition get_prop (v : val) (k : string) : option val :=
  match v with
  | VUndef | VNull => None
  | _ => Some (obj_read k (own_props v))
  end.

(** [a || b]. *)
Definition or_else (a b : val) : val := if truthy a then a else b.

End JS.

Import JS.

(** ** The application state (context/AppContext.js) *)

Module AppContext.

Record action : Type := mkAction {
  type : val;
  payload : val
}.

Definition initialState : obj :=
  [ ("uploadedFile", VNull);
    ("processingStatus", VStr "idle");
    ("extractionResults", VNull);
    ("accuracyMetrics", VNull);
    ("currentStep", VNum 0);
    ("totalSteps", VNum 4);
    ("error", VNull);
    ("processingProgress",
      VObj [ ("ocr", VNum 0);
             ("tableDetection", VNum 0);
             ("validation", VNum 0);
             ("csvGeneration", VNum 0) ]) ].

(** The eight [case] labels of the reducer's [switch]. *)
Definition handled_types : list string :=
  [ "SET_UPLOADED_FILE"; "SET_PROCESSING_STATUS"; "SET_EXTRACTION_RESULTS";
    "SET_ACCURACY_METRICS"; "SET_CURRENT_STEP"; "SET_ERROR";
    "SET_PROCESSING_PROGRESS"; "RESET_STATE" ].

(** [appReducer] (lines 21-79). [switch (action.type)] compares with
    [===]: only a string selects a [case]; a spread into a fresh object
    literal keeps the properties and their order. *)
Definition appReducer (state : obj) (a : action) : obj :=
  match type a with
  | VStr t =>
      if String.eqb t "SET_UPLOADED_FILE" then
        obj_set "processingStatus" (VStr "uploading")
          (obj_set "uploadedFile" (payload a) state)
      else if String.eqb t "SET_PROCESSING_STATUS" then
        obj_set "processingStatus" (payload a) state
      else if String.eqb t "SET_EXTRACTION_RESULTS" then
        obj_set "processingStatus" (VStr "completed")
          (obj_set "extractionResults" (payload a) state)
      else if String.eqb t "SET_ACCURACY_METRICS" then
        obj_set "accuracyMetrics" (payload a) state
      else if String.eqb t "SET_CURRENT_STEP" then
        obj_set "currentStep" (payload a) state
      else if String.eqb t "SET_ERROR" then
        obj_set "processingStatus" (VStr "error")
          (obj_set "error" (payload a) state)
      else if String.eqb t "SET_PROCESSING_PROGRESS" then
        obj_set "processingProgress"
          (VObj (obj_spread
                   (own_props (obj_read "processingProgress" state))
                   (own_props (payload a))))
          state
      else if String.eqb t "RESET_STATE" then
        initialState
      else state
  | _ => state
  end.

End AppContext.

Import AppContext.

(** ** The upload component (components/DocumentUpload.js) *)

Module DocumentUpload.

(** What the component does to the outside, in order. [Post] is an
    [axios.post] to a path under [API_BASE_URL]. *)
Inductive effect : Type :=
| SetUploadedFile (f : File)
| SetIsProcessing (b : bool)
| Dispatch (a : action)
| Post (path : string) (body : val)
| Navigate (path : string)
| ConsoleError (message : string)
| ToastError (message : string).



(** [onDrop] (lines 175-181): react-dropzone calls it with the files it
    accepted; a [File] is an object, so [if (file)] asks whether there is
    a first one. *)
Definition onDrop (acceptedFiles : list File) : list effect :=
  match nth_error acceptedFiles 0 with
  | Some file =>
      [ SetUploadedFile file;
        Dispatch (mkAction (VStr "SET_UPLOADED_FILE") (VFile file)) ]
  | None => []
  end.

(** The component's own state ([useState], lines 172-173) next to the
    shared one. The component lives on the route [/] only (App.js, line
    32): [mounted] says whether the instance is still there. *)
Record local : Type := mkLocal {
  uploadedFile : option File;
  isProcessing : bool;
  mounted : bool
}.

Definition initialLocal : local :=
  {| uploadedFile := None; isProcessing := false; mounted := true |}.

(** What is left of an instance once its route is gone. *)
Definition unmounted : local :=
  {| uploadedFile := None; isProcessing := false; mounted := false |}.

(** One effect on the instance and on the shared state. A setter of an
    instance that is gone does nothing; navigating to another route than
    the component's own unmounts the instance and its state is lost (the
    route changes at the next render, before anything that follows an
    [await]); the shared state, held by the provider above the routes,
    stays. *)
Definition apply_effect (st : local * obj) (e : effect) : local * obj :=
  match e with
  | SetUploadedFile f =>
      (if mounted (fst st)
       then {| uploadedFile := Some f;
               isProcessing := isProcessing (fst st);
               mounted := true |}
       else fst st,
       snd st)
  | SetIsProcessing b =>
      (if mounted (fst st)
       then {| uploadedFile := uploadedFile (fst st);
               isProcessing := b;
               mounted := true |}
       else fst st,
       snd st)
  | Dispatch a => (fst st, appReducer (snd st) a)
  | Navigate path =>
      (if String.eqb path "/" then fst st else unmounted, snd st)
  | Post _ _ | ConsoleError _ | ToastError _ => st
  end.

Definition apply_effects (st : local * obj) (es : list effect)
  : local * obj :=
  fold_left apply_effect es st.

(** What the JavaScript engine decides: the text of the [TypeError] for
    reading property [k] of [undefined] or [null], and [String(v)] for
    the values whose conversion is not a fixed word. *)
Record Host : Type := mkHost {
  type_error_message : val -> string -> string;
  host_to_string : val -> string
}.

Definition js_String (h : Host) (v : val) : string :=
  match v with
  | VStr s => s
  | VUndef => "undefined"
  | VNull => "null"
  | VBool true => "true"
  | VBool false => "false"
  | VNum _ | VArr _ | VObj _ | VFile _ => host_to_string h v
  end.

(** A computation of the handler: the effects so far and either a value
    or the message of the [Error] thrown. *)
Definition M (A : Type) : Type := (list effect * (A + string))%type.

Definition ret {A} (a : A) : M A := ([], inl a).
Definition throw {A} (message : string) : M A := ([], inr message).
Definition emit (e : effect) : M unit := ([e], inl tt).

Definition bind {A B} (m : M A) (k : A -> M B) : M B :=
  match m with
  | (es, inl a) => let (es', r) := k a in (es ++ es', r)
  | (es, inr message) => (es, inr message)
  end.

(** [try { m } catch (error) { h error.message }]. *)
Definition try_catch (m : M unit) (h : string -> M unit) : M unit :=
  match m with
  | (es, inl tt) => (es, inl tt)
  | (es, inr message) => let (es', r) := h message in (es ++ es', r)
  end.

(** [try { m } finally { f }], for an [f] that does not throw. *)
Definition finally (m : M unit) (f : list effect) : M unit :=
  (fst m ++ f, snd m).

Declare Scope handler_scope.
Delimit Scope handler_scope with handler.
Notation "x <- m ;; k" := (bind m (fun x => k))
  (at level 61, m at next level, right associativity) : handler_scope.
Notation "m ;;; k" := (bind m (fun _ => k))
  (at level 61, right associativity) : handler_scope.

(** How an awaited request ends. A resolved promise carries the
    response's [data]; a rejected one an [Error] with its message. *)
Inductive outcome : Type :=
| Resolves (data : val)
| Rejects (message : string).

Definition await (o : outcome) : M val :=
  match o with
  | Resolves data => ret data
  | Rejects message => throw message
  end.

Definition dispatch (t : string) (p : val) : M unit :=
  emit (Dispatch (mkAction (VStr t) p)).

Section handler.

Variable host : Host.

Definition read (v : val) (k : string) : M val :=
  match get_prop v k with
  | Some x => ret x
  | None => throw (type_error_message host v k)
  end.

Definition extractRequest (filepath : val) : val :=
  VObj [ ("filepath", filepath);
         ("options", VObj [ ("enable_preview", VBool true);
                            ("confidence_threshold", VNum 0.7) ]) ].

(** The body of the [try] block (lines 200-234). *)
Definition tryBlock (file : File) (upload extraction : outcome)
  : M unit :=
  (emit (Post "/upload" (VObj [("file", VFile file)])) ;;;
   uploadData <- await upload ;;
   filepath <- read uploadData "filepath" ;;
   if truthy filepath then
     dispatch "SET_PROCESSING_STATUS" (VStr "processing") ;;;
     emit (Navigate "/processing") ;;;
     emit (Post "/extract" (extractRequest filepath)) ;;;
     data <- await extraction ;;
     success <- read data "success" ;;
     if truthy success then
       dispatch "SET_EXTRACTION_RESULTS" data ;;;
       accuracy_rate <- read data "accuracy_rate" ;;
       total_cells <- read data "total_cells" ;;
       validation_errors <- read data "validation_errors" ;;
       dispatch "SET_ACCURACY_METRICS"
         (VObj [ ("accuracy_rate", accuracy_rate);
                 ("total_cells", total_cells);
                 ("validation_errors", validation_errors) ]) ;;;
       emit (Navigate "/results")
     else
       error <- read data "error" ;;
       throw (js_String host (or_else error (VStr "Extraction failed")))
   else ret tt)%handler.

Definition catchBlock (message : string) : M unit :=
  (emit (ConsoleError message) ;;;
   dispatch "SET_ERROR" (VStr message) ;;;
   emit (ToastError ("Processing failed: " ++ message)))%handler.

(** [handleProcess] (lines 193-242), run with the file the component
    holds and with the way the two requests end (the second is only
    awaited when it is issued). *)
Definition handleProcess (file : option File)
    (upload extraction : outcome) : M unit :=
  match file with
  | None => ret tt
  | Some f =>
      (emit (SetIsProcessing true) ;;;
       dispatch "SET_PROCESSING_STATUS" (VStr "uploading") ;;;
       finally
         (try_catch (tryBlock f upload extraction) catchBlock)
         [SetIsProcessing false])%handler
  end.

Definition trace (file : option File) (upload extraction : outcome)
  : list effect :=
  fst (handleProcess file upload extraction).

End handler.

(** The dispatches of a trace, by action type. *)
Definition dispatches (t : string) (es : list effect) : list val :=
  flat_map
    (fun e =>
       match e with
       | Dispatch a =>
           match type a with
           | VStr t' => if String.eqb t t' then [payload a] else []
           | _ => []
           end
       | _ => []
       end) es.

(** The bodies posted to a path. *)
Definition posts (path : string) (es : list effect) : list val :=
  flat_map
    (fun e =>
       match e with
       | Post path' body => if String.eqb path path' then [body] else []
       | _ => []
       end) es.

End DocumentUpload.

(** ** The results view (components/ResultsView.js) *)

Module ResultsView.

Definition comma : ascii := ","%char.
Definition newline : ascii := "010"%char.
Definition dquote : ascii := "034"%char.

(** [s.split(sep)] for a separator of one code unit. *)
Fixpoint split (sep : ascii) (s : string) : list string :=
  match s with
  | EmptyString => [EmptyString]
  | String c s' =>
      if Ascii.eqb c sep then EmptyString :: split sep s'
      else match split sep s' with
           | piece :: pieces => String c piece :: pieces
           | [] => [String c EmptyString]
           end
  end.

(** [cell.replace] of every double quote by the empty string. *)
Fixpoint strip_quotes (s : string) : string :=
  match s with
  | EmptyString => EmptyString
  | String c s' =>
      if Ascii.eqb c dquote then strip_quotes s'
      else String c (strip_quotes s')
  end.

(** The six names the view destructures from [extractionResults]
    (line 202). *)
Definition destructured : list string :=
  [ "accuracy_rate"; "total_tables"; "total_cells"; "validation_errors";
    "csv_data"; "validation_results" ].

Definition csv_data (extractionResults : val) : val :=
  obj_read "csv_data" (own_props extractionResults).

(** The body of [formatCSVData] (lines 204-210), on the [csv_data] in
    scope: [None] is the [TypeError] of calling [split] on a value that
    has none. *)
Definition formatCSV (csv : val) : option (list (list string)) :=
  if negb (truthy csv) then Some []
  else match csv with
       | VStr text =>
           Some (map (fun line => map strip_quotes (split comma line))
                     (split newline text))
       | _ => None
       end.

(** [formatCSVData] of the view, which is rendered only for a truthy
    [extractionResults]. *)
Definition formatCSVData (extractionResults : val)
  : option (list (list string)) :=
  formatCSV (csv_data extractionResults).

(** [rows.slice(start, stop)] for indices that are not negative. *)
Definition slice {A} (start stop : nat) (rows : list A) : list A :=
  firstn (stop - start) (skipn start rows).

(** The guard of the view (lines 197-200): a falsy [extractionResults]
    sends the user back to the upload page and renders nothing. *)
Definition shown (extractionResults : val) : bool := truthy extractionResults.

(** The preview table (lines 299-314): [formatCSVData()[0]?.map(...)] is
    the header, [formatCSVData().slice(1, 6)] the body. *)
Definition previewHeader (rows : list (list string)) : option (list string) :=
  nth_error rows 0.

Definition previewBody (rows : list (list string)) : list (list string) :=
  slice 1 6 rows.

(** [x > 0]: a number is compared as it is, the other primitives by
    their numeric reading ([true] is 1; [false], [null] and [undefined]
    are not above 0); for a string or an object the engine's conversion
    decides. *)
Definition above_0 (engine_above_0 : val -> bool) (x : val) : bool :=
  match x with
  | VNum n => PrimFloat.ltb 0 n
  | VBool b => b
  | VUndef | VNull => false
  | VStr _ | VArr _ | VObj _ | VFile _ => engine_above_0 x
  end.

(** [validation_results && validation_results.length > 0] (line 264):
    whether the view goes on to build the validation section. A falsy
    value stops at [&&]. The length of an array is the number of its
    elements and that of a string the number of its code units, which is
    above 0 for a truthy string; an object has the [length] it was given,
    if any; a number, a boolean and a [File] have none, and [undefined]
    is not above 0. *)
Definition lists_validation (engine_above_0 : val -> bool)
    (validation_results : val) : bool :=
  match validation_results with
  | VArr xs => negb (Nat.eqb (List.length xs) 0)
  | VStr s => negb (Nat.eqb (String.length s) 0)
  | VObj o => above_0 engine_above_0 (obj_read "length" o)
  | VUndef | VNull | VBool _ | VNum _ | VFile _ => false
  end.

(** The names the file binds at its top: what it imports (lines 1-9)
    and the styled components it declares (lines 11-184). *)
Definition imported : list string :=
  [ "React"; "useState"; "useNavigate"; "styled"; "motion";
    "Download"; "CheckCircle"; "AlertTriangle"; "FileText"; "BarChart3";
    "ArrowLeft"; "CSVLink"; "toast"; "useAppContext" ].

Definition declared : list string :=
  [ "Container"; "ResultsCard"; "Header"; "Title"; "BackButton";
    "MetricsGrid"; "MetricCard"; "MetricValue"; "MetricLabel";
    "AccuracyBadge"; "TableSection"; "TableTitle"; "TableContainer";
    "Table"; "Th"; "Td"; "ActionButtons"; "DownloadButton";
    "ValidationSection"; "ValidationTitle"; "ValidationItem" ].

Definition bound (name : string) : bool :=
  existsb (String.eqb name) (imported ++ declared).

(** The components the validation section names before anything else of
    it is evaluated (lines 265-267). *)
Definition validation_section_opening : list string :=
  [ "ValidationSection"; "ValidationTitle"; "Shield" ].

Inductive error : Type :=
| ReferenceError (name : string)
| TypeError (what : string).

(** How a call of the component ends: it sends the user to a page and
    returns [null], it throws, or it returns its element, of which the
    metric cards' children and the preview table are kept. *)
Inductive rendering : Type :=
| Redirects (path : string)
| Throws (e : error)
| Element (metrics : list val)
          (preview : option (option (list string) * list (list string))).

(** The first name of a list that the file does not bind. *)
Definition first_unbound (names : list string) : option string :=
  find (fun name => negb (bound name)) names.

(** The component (lines 192-348), as far as the preview table: the
    guard, the destructuring, the metric cards, the validation section
    and the preview. *)
Definition render (engine_above_0 : val -> bool) (extractionResults : val)
  : rendering :=
  if negb (truthy extractionResults) then Redirects "/"
  else
    let field k := obj_read k (own_props extractionResults) in
    let metrics :=
      [ field "total_tables"; field "total_cells";
        field "validation_errors" ] in
    match
      (if lists_validation engine_above_0 (field "validation_results")
       then first_unbound validation_section_opening else None)
    with
    | Some name => Throws (ReferenceError name)
    | None =>
        if truthy (field "csv_data") then
          match formatCSV (field "csv_data") with
          | None => Throws (TypeError "csv_data.split is not a function")
          | Some rows =>
              Element metrics (Some (previewHeader rows, previewBody rows))
          end
        else Element metrics None
    end.

End ResultsView.

(** ** The processing view (components/ProcessingStatus.js) *)

Module ProcessingStatus.

(** Whether [+] with this operand is a concatenation of strings rather
    than an addition of numbers: a string is one, and an object or an
    array becomes one. *)
Definition concatenates (v : val) : bool :=
  match v with
  | VStr _ | VArr _ | VObj _ | VFile _ => true
  | VUndef | VNull | VBool _ | VNum _ => false
  end.

(** [ToNumber] of the primitives that are numbers or have a fixed numeric
    reading. The conversion of a string or of an object is not computed
    here: [None] marks a value outside what is modelled, not an
    exception, for the code throws on none of them. *)
Definition to_number (v : val) : option float :=
  match v with
  | VNum x => Some x
  | VBool true => Some 1%float
  | VBool false => Some 0%float
  | VNull => Some 0%float
  | VUndef => Some nan
  | VStr _ | VArr _ | VObj _ | VFile _ => None
  end.

(** [sum + val] where it is an addition of numbers; [None] where it is a
    concatenation, whose string is not computed here. *)
Definition plus (sum v : val) : option val :=
  match to_number sum, to_number v with
  | Some a, Some b => Some (VNum (a + b))
  | _, _ => None
  end.

(** [values.reduce((sum, val) => sum + val, 0)]. *)
Definition reduce_sum (values : list val) : option val :=
  fold_left
    (fun acc v => match acc with Some sum => plus sum v | None => None end)
    values (Some (VNum 0)).

(** Whether [Object.values(processingProgress)] throws its
    [TypeError]. *)
Definition values_throw (processingProgress : val) : bool :=
  match processingProgress with
  | VUndef | VNull => true
  | _ => false
  end.

(** [totalProgress] (line 178; the effect of lines 155-156 computes the
    same): [Object.values(processingProgress).reduce(...) / 4]. [None]
    in two cases that [values_throw] tells apart: [Object.values] throws,
    or some value makes the sum a concatenation, where the code goes on
    with a string that is not computed here. *)
Definition totalProgress (processingProgress : val) : option float :=
  match processingProgress with
  | VUndef | VNull => None
  | _ =>
      match reduce_sum (obj_values (own_props processingProgress)) with
      | Some (VNum total) => Some (total / 4)%float
      | _ => None
      end
  end.

(** [totalProgress >= 100] (lines 158 and 257), the test that shows the
    run as complete. *)
Definition complete (total : float) : bool := PrimFloat.leb 100 total.

(** A whole percentage as a number. *)
Definition percent (n : Z) : float := PrimFloat.of_uint63 (Uint63.of_Z n).

(** A progress record with the four stages of [initialState]. *)
Definition progress (ocr tableDetection validation csvGeneration : float)
  : val :=
  VObj [ ("ocr", VNum ocr);
         ("tableDetection", VNum tableDetection);
         ("validation", VNum validation);
         ("csvGeneration", VNum csvGeneration) ].

(** The rational a finite float stands for. *)
Definition float_to_Q (x : float) : option Q :=
  match Prim2SF x with
  | S754_zero _ => Some 0%Q
  | S754_finite sign m e =>
      Some ((if sign then -1 else 1) * inject_Z (Zpos m) * Qpower 2 e)%Q
  | S754_infinity _ | S754_nan => None
  end.

Definition in_0_100 (x : float) : bool :=
  PrimFloat.leb 0 x && PrimFloat.leb x 100.

(** The four steps of the view, in order (lines 120-149). *)
Definition stages : list string :=
  [ "ocr"; "tableDetection"; "validation"; "csvGeneration" ].

(** The [progress] of each element of [steps]: [None] is the [TypeError]
    of reading a stage of [undefined] or [null]. *)
Definition steps (processingProgress : val) : option (list val) :=
  match processingProgress with
  | VUndef | VNull => None
  | _ =>
      Some (map (fun k => obj_read k (own_props processingProgress)) stages)
  end.

(** [stepProgress >= 100] for the values [to_number] reads; [None] for a
    string or an object, whose conversion is not computed here (the
    comparison itself never throws). *)
Definition at_least_100 (stepProgress : val) : option bool :=
  match to_number stepProgress with
  | Some x => Some (PrimFloat.leb 100 x)
  | None => None
  end.

(** [getStepStatus] (lines 171-176) over the progress of the steps.
    [None] in two cases that the index tells apart: for an index without
    a step it is the [TypeError] of [steps[stepIndex].progress]; for an
    index with a step it is a progress that [to_number] does not read,
    where the code does not throw. *)
Definition getStepStatus (progresses : list val) (currentStep stepIndex : nat)
  : option string :=
  match nth_error progresses stepIndex with
  | None => None
  | Some stepProgress =>
      match at_least_100 stepProgress with
      | None => None
      | Some true => Some "completed"
      | Some false =>
          if Nat.eqb stepIndex currentStep then Some "active"
          else Some "pending"
      end
  end.

(** [useState(0)]: the view never calls [setCurrentStep]. *)
Definition currentStep : nat := 0.

End ProcessingStatus.

(** ** The extraction core

    The extraction pipeline (the Python back end: OCR consensus, table
    detection, validation, CSV generation, orchestration) is not among the
    sources; what follows is written from its specification. Its numbers
    are rationals. *)

Module Core.

Import ResultsView.

(** *** CSV generator *)

(** Modelled from the spec: the CSV Generator's quoting rule (the
    generator itself is missing): a cell containing a comma, a quote or
    a newline is the one that gets wrapped. *)
Fixpoint needs_quoting (cell : string) : bool :=
  match cell with
  | EmptyString => false
  | String c rest =>
      Ascii.eqb c comma || Ascii.eqb c dquote || Ascii.eqb c newline
      || needs_quoting rest
  end.

(** Modelled from the spec: internal quotes doubled. *)
Fixpoint double_quotes (cell : string) : string :=
  match cell with
  | EmptyString => EmptyString
  | String c rest =>
      if Ascii.eqb c dquote
      then String dquote (String dquote (double_quotes rest))
      else String c (double_quotes rest)
  end.

(** Modelled from the spec: a cell as the generator writes it. *)
Definition quote_cell (cell : string) : string :=
  if needs_quoting cell
  then String dquote (double_quotes cell ++ String dquote EmptyString)
  else cell.

Fixpoint join (sep : ascii) (pieces : list string) : string :=
  match pieces with
  | [] => EmptyString
  | [piece] => piece
  | piece :: rest => piece ++ String sep (join sep rest)
  end.

(** Modelled from the spec: the CSV Generator's serialization of a cell
    matrix, cells separated by commas and rows by newlines, columns in
    their detected order and no value changed. *)
Definition serialize (matrix : list (list string)) : string :=
  join newline (map (fun row => join comma (map quote_cell row)) matrix).

(** *** Validation and the orchestrator's metrics *)

(** A table after cell assignment and validation: the dimensions of its
    grid, the errors its four passes found besides the structural one,
    and the warnings they left. *)
Record Table : Type := mkTable {
  rows : nat;
  cols : nat;
  pass_errors : list string;
  warnings : list string
}.

(** Modelled from the spec: the cells of a table (cell assignment is
    missing): a dense matrix, one cell for each row and column index,
    the indices contiguous and zero-based. *)
Definition cells (t : Table) : list (nat * nat) :=
  list_prod (seq 0 (rows t)) (seq 0 (cols t)).

(** Modelled from the spec: the structural error (the validator is
    missing): a table with zero rows or zero columns always produces a
    [StructuralError]. *)
Definition structural_errors (t : Table) : list string :=
  if (rows t =? 0)%nat || (cols t =? 0)%nat
  then ["StructuralError"] else [].

(** Modelled from the spec: the Validator's errors (the validator is
    missing). The passes append to one list; which violations besides
    zero rows or zero columns count as errors the specification leaves
    open, so a table carries them as data. *)
Definition errors (t : Table) : list string :=
  structural_errors t ++ pass_errors t.

(** Modelled from the spec: the Orchestrator's totals over the tables of
    a page (the orchestrator is missing): every cell of every table is
    counted, and every error increments [validation_errors]. *)
Definition total_tables (tables : list Table) : nat := List.length tables.

Definition total_cells (tables : list Table) : nat :=
  List.length (flat_map cells tables).

Definition validation_errors (tables : list Table) : nat :=
  List.length (flat_map errors tables).

Definition validation_warnings (tables : list Table) : nat :=
  List.length (flat_map warnings tables).

Definition clamp01 (q : Q) : Q := Qmax 0 (Qmin 1 q).

Definition count (n : nat) : Q := inject_Z (Z.of_nat n).

Section accuracy.

(** The weights of an error and of a warning: policy constants, for
    instance 1 and 1/5. *)
Variables w_error w_warning : Q.

(** What the quotient is taken to be for a result without cells, for
    which the specification gives no rate: a policy of the orchestrator,
    given the weighted count. *)
Variable quotient_without_cells : Q -> Q.

Definition weighted_count (n_errors n_warnings : nat) : Q :=
  w_error * count n_errors + w_warning * count n_warnings.

(** Modelled from the spec: the accuracy rate of the Orchestrator,
    [1 - weighted_error_and_warning_count / total_cells] clamped to
    the unit interval. *)
Definition accuracy (n_errors n_warnings n_cells : nat) : Q :=
  let weighted := weighted_count n_errors n_warnings in
  clamp01
    (1 - (if (n_cells =? 0)%nat then quotient_without_cells weighted
          else weighted / count n_cells)).

Definition accuracy_rate (tables : list Table) : Q :=
  accuracy (validation_errors tables) (validation_warnings tables)
           (total_cells tables).

End accuracy.

(** *** Consensus *)

Record BBox : Type := mkBBox { bx : Q; by_ : Q; bw : Q; bh : Q }.

Record OcrToken : Type := mkToken {
  text : string;
  bbox : BBox;
  confidence : Q;
  engine_id : nat
}.

Record ConsensusToken : Type := mkConsensus {
  c_text : string;
  c_bbox : BBox;
  c_confidence : Q;
  agreement_count : nat;
  contributing_engines : list nat
}.

Definition Qltb (a b : Q) : bool := negb (Qle_bool b a).

Definition overlap_1d (a la b lb : Q) : Q :=
  Qmax 0 (Qmin (a + la) (b + lb) - Qmax a b).

Definition intersection (p q : BBox) : Q :=
  overlap_1d (bx p) (bw p) (bx q) (bw q)
  * overlap_1d (by_ p) (bh p) (by_ q) (bh q).

Definition area (p : BBox) : Q := bw p * bh p.

(** Modelled from the spec: Intersection-over-Union of two boxes. *)
Definition iou (p q : BBox) : Q :=
  intersection p q / (area p + area q - intersection p q).

(** The fixed clustering threshold, default 0.5. *)
Definition iou_threshold : Q := 1 # 2.

(** Spatial order: top to bottom, then left to right. *)
Definition before (s t : OcrToken) : bool :=
  Qltb (by_ (bbox s)) (by_ (bbox t))
  || (Qeq_bool (by_ (bbox s)) (by_ (bbox t))
      && Qle_bool (bx (bbox s)) (bx (bbox t))).

Fixpoint insert_spatial (t : OcrToken) (ts : list OcrToken)
  : list OcrToken :=
  match ts with
  | [] => [t]
  | s :: ts' => if before t s then t :: ts else s :: insert_spatial t ts'
  end.

Definition spatial_order (ts : list OcrToken) : list OcrToken :=
  fold_right insert_spatial [] ts.

(** A cluster, its first token (the seed) in front. *)
Definition cluster : Type := list OcrToken.

Definition seed_iou (t : OcrToken) (c : cluster) : Q :=
  match c with
  | [] => 0
  | s :: _ => iou (bbox s) (bbox t)
  end.

(** The position of the cluster nearest to [t] (greatest overlap with
    its seed), when that overlap is beyond the threshold. *)
Fixpoint nearest (t : OcrToken) (cs : list cluster) (i : nat)
    (best : option (nat * Q)) : option nat :=
  match cs with
  | [] => match best with Some (j, _) => Some j | None => None end
  | c :: cs' =>
      let o := seed_iou t c in
      let better :=
        Qltb iou_threshold o
        && match best with Some (_, b) => Qltb b o | None => true end in
      nearest t cs' (S i) (if better then Some (i, o) else best)
  end.

Fixpoint add_to (j : nat) (t : OcrToken) (cs : list cluster)
  : list cluster :=
  match cs, j with
  | [], _ => []
  | c :: cs', O => (c ++ [t]) :: cs'
  | c :: cs', S j' => c :: add_to j' t cs'
  end.

(** Modelled from the spec: the Consensus Engine's clustering (the
    engine is missing): a greedy nearest-box merge of the tokens of all
    engines taken in spatial order. *)
Definition merge (cs : list cluster) (t : OcrToken) : list cluster :=
  match nearest t cs 0 None with
  | Some j => add_to j t cs
  | None => cs ++ [[t]]
  end.

Definition clusters (tokens : list OcrToken) : list cluster :=
  fold_left merge (spatial_order tokens) [].

Section consensus.

(** The reliability prior of an engine (default: equal), the factor
    of the agreement bonus, and the number of engines that ran. *)
Variable reliability : nat -> Q.
Variable bonus : Q.
Variable total_engines_run : nat.

(** How a bonus raises a confidence, which the specification leaves
    open: by adding it, by scaling with it, or otherwise. *)
Variable boost : Q -> Q -> Q.

Definition weight (t : OcrToken) : Q :=
  confidence t * reliability (engine_id t).

(** The vote a text gets in a cluster. *)
Definition votes (c : cluster) (txt : string) : Q :=
  fold_right
    (fun t acc => if String.eqb (text t) txt then weight t + acc else acc)
    0 c.

(** Whether [t] beats the leader [l]: more votes, then the longer
    text, then the more reliable engine. *)
Definition beats (c : cluster) (t l : OcrToken) : bool :=
  let vt := votes c (text t) in
  let vl := votes c (text l) in
  Qltb vl vt
  || (Qeq_bool vt vl
      && ((String.length (text l) <? String.length (text t))%nat
          || ((String.length (text l) =? String.length (text t))%nat
              && Qltb (reliability (engine_id l))
                      (reliability (engine_id t))))).

Definition winner (c : cluster) : option OcrToken :=
  match c with
  | [] => None
  | s :: rest =>
      Some (fold_left (fun l t => if beats c t l then t else l) rest s)
  end.

(** The token of the greatest confidence, the first of them. *)
Definition most_confident (c : cluster) : option OcrToken :=
  match c with
  | [] => None
  | s :: rest =>
      Some (fold_left
              (fun l t => if Qltb (confidence l) (confidence t) then t else l)
              rest s)
  end.

Definition max_confidence (c : cluster) : Q :=
  match most_confident c with
  | Some t => confidence t
  | None => 0
  end.

Definition engines (c : cluster) : list nat :=
  nodup Nat.eq_dec (map engine_id c).

(** The agreement bonus of a cluster: proportional to
    [agreement_count / total_engines_run]. *)
Definition agreement_bonus (c : cluster) : Q :=
  bonus * (count (List.length (engines c)) / count total_engines_run).

(** Modelled from the spec: the consensus confidence of a cluster,
    the maximum single-engine confidence boosted by the agreement
    bonus, capped at one. *)
Definition consensus_confidence (c : cluster) : Q :=
  Qmin 1 (boost (max_confidence c) (agreement_bonus c)).

(** Modelled from the spec: the consensus token of a cluster, text by
    weighted vote. *)
Definition consensus_of (c : cluster) : option ConsensusToken :=
  match winner c, c with
  | Some w, s :: _ =>
      Some {| c_text := text w;
              c_bbox := bbox s;
              c_confidence := consensus_confidence c;
              agreement_count := List.length (engines c);
              contributing_engines := engines c |}
  | _, _ => None
  end.

Fixpoint somes {A} (xs : list (option A)) : list A :=
  match xs with
  | [] => []
  | Some x :: xs' => x :: somes xs'
  | None :: xs' => somes xs'
  end.

Definition consensus (tokens : list OcrToken) : list ConsensusToken :=
  somes (map consensus_of (clusters tokens)).

End consensus.

End Core.

(** ** The header (components/Header.js) *)

Module Header.

(** [isActive] (lines 84-89): the upload link is active on the root path
    only, any other link on every path that starts with its own. *)
Definition isActive (pathname path : string) : bool :=
  if String.eqb path "/" then String.eqb pathname "/"
  else String.prefix path pathname.

(** The two links of the navigation bar (lines 99-107). *)
Definition links : list string := [ "/"; "/analytics" ].

End Header.

(** ** The routes (App.js) *)

Module App.

(** The [path] of each [Route] (lines 32-35). *)
Definition routes : list string :=
  [ "/"; "/processing"; "/results"; "/analytics" ].

End App.

(** ** The API proxy (the serverless handler that forwards /api requests) *)

Module ApiProxy.

Fixpoint skip_units (n : nat) (s : string) : string :=
  match n, s with
  | O, _ => s
  | S _, EmptyString => EmptyString
  | S n', String _ s' => skip_units n' s'
  end.

(** [s.replace(pattern, '')] for a string pattern: the first occurrence
    of the pattern goes, the rest stays. *)
Fixpoint remove_first (pattern s : string) : string :=
  match s with
  | EmptyString => EmptyString
  | String c s' =>
      if String.prefix pattern s
      then skip_units (String.length pattern) s
      else String c (remove_first pattern s')
  end.

(** [const apiPath = url.replace('/api', '')] (line 11). *)
Definition apiPath (url : string) : string := remove_first "/api" url.

(** What the handler does to the outside, in order. *)
Inductive effect : Type :=
| Request (config : obj)
| Status (code : val)
| SetHeader (name : string) (value : val)
| Pipe
| Json (body : val)
| ConsoleError (message : string).

(** What the handler reads of the incoming request (line 8). *)
Record request : Type := mkRequest {
  method : val;
  url : string;
  body : val;
  headers : val
}.

(** What the handler reads of the backend's answer; its [data] is the
    stream it pipes. *)
Record response : Type := mkResponse {
  status : val;
  response_headers : obj
}.

(** How the awaited [axios] call ends; it rejects, with an [Error], also
    when the backend answers with a status outside 2xx. *)
Inductive outcome : Type :=
| Resolves (r : response)
| Rejects (message : string).

(** The [catch] block (lines 32-38). *)
Definition failure (message : string) : list effect :=
  [ ConsoleError message;
    Status (VNum 500);
    Json (VObj [ ("error", VStr "Internal Server Error");
                 ("message", VStr message) ]) ].

(** The request the handler builds (lines 14-23). *)
Definition forwarded (BACKEND_URL host : string) (req : request) : obj :=
  [ ("method", method req);
    ("url", VStr (BACKEND_URL ++ apiPath (url req)));
    ("data", body req);
    ("headers", VObj (obj_set "host" (VStr host) (own_props (headers req))));
    ("responseType", VStr "stream") ].

(** [handler] (lines 6-39). [host] is [new URL(BACKEND_URL).host], or the
    message of the [TypeError] for a [BACKEND_URL] that is no URL; it is
    evaluated while the request is built, before the call. *)
Definition handler (BACKEND_URL : string) (host : string + string)
    (req : request) (answer : outcome) : list effect :=
  match host with
  | inr message => failure message
  | inl h =>
      Request (forwarded BACKEND_URL h req)
      :: match answer with
         | Resolves r =>
             Status (status r)
             :: map (fun name =>
                       SetHeader name (obj_read name (response_headers r)))
                    (obj_keys (response_headers r))
             ++ [Pipe]
         | Rejects message => failure message
         end
  end.

(** The statuses a run writes. *)
Definition statuses (es : list effect) : list val :=
  flat_map (fun e => match e with Status c => [c] | _ => [] end) es.

(** The requests a run sends. *)
Definition requests (es : list effect) : list obj :=
  flat_map (fun e => match e with Request c => [c] | _ => [] end) es.

End ApiProxy.

(** ** The paths of the upload handler *)

Import DocumentUpload.

(** What the [catch] block does with a message. *)
Definition failure (message : string) : list effect :=
  [ ConsoleError message;
    Dispatch (mkAction (VStr "SET_ERROR") (VStr message));
    ToastError ("Processing failed: " ++ message)%string ].

(** What the handler does once the extraction has answered. *)
Definition after_extraction (host : Host) (extraction : outcome)
  : list effect :=
  match extraction with
  | Rejects message => failure message
  | Resolves data =>
      match get_prop data "success" with
      | None => failure (type_error_message host data "success")
      | Some success =>
          if truthy success then
            [ Dispatch (mkAction (VStr "SET_EXTRACTION_RESULTS") data);
              Dispatch
                (mkAction (VStr "SET_ACCURACY_METRICS")
                   (VObj
                      [ ("accuracy_rate",
                          obj_read "accuracy_rate" (own_props data));
                        ("total_cells",
                          obj_read "total_cells" (own_props data));
                        ("validation_errors",
                          obj_read "validation_errors" (own_props data)) ]));
              Navigate "/results" ]
          else
            failure
              (js_String host
                 (or_else (obj_read "error" (own_props data))
                          (VStr "Extraction failed")))
      end
  end.

(** What the handler does once the upload has answered. *)
Definition after_upload (host : Host) (upload extraction : outcome)
  : list effect :=
  match upload with
  | Rejects message => failure message
  | Resolves data =>
      match get_prop data "filepath" with
      | None => failure (type_error_message host data "filepath")
      | Some filepath =>
          if truthy filepath then
            [ Dispatch (mkAction (VStr "SET_PROCESSING_STATUS")
                          (VStr "processing"));
              Navigate "/processing";
              Post "/extract" (extractRequest filepath) ]
            ++ after_extraction host extraction
          else []
      end
  end.

(** ** The dropzone the upload component sits on

    [useDropzone] belongs to react-dropzone, a library outside the
    repository. The component hands it [dropzoneOptions] and gets its
    [onDrop] called with the files the library accepted; what it relies
    on is that the library honours the options it was given. *)







(** ** Sample inputs *)

(** A file, an engine and an upload answer without a path. *)
Definition a_file : File := mkFile "scan.pdf" "application/pdf" 20480.

Definition a_host : Host :=
  {| type_error_message := fun _ k => ("Cannot read properties (reading " ++ k ++ ")")%string;
     host_to_string := fun _ => "[object Object]" |}.

Definition upload_without_filepath : val :=
  VObj [("message", VStr "File uploaded successfully")].

Definition upload_with_filepath : val :=
  VObj [ ("message", VStr "File uploaded successfully");
         ("filename", VStr "scan.pdf");
         ("filepath", VStr "uploads/scan.pdf") ].

(** A response of [/extract] as the README documents it. *)
Definition documented_response : val :=
  VObj [ ("success", VBool true);
         ("accuracy_rate", VNum 0.995);
         ("total_tables", VNum 3);
         ("total_cells", VNum 150);
         ("validation_errors", VNum 2);
         ("csv_data", VStr "header1,header2,header3");
         ("validation_results", VArr []) ].

(** ** The external interface as the specification words it *)

(** Two objects have the same shape when they have the same field
    names. *)
Definition same_fields (ks1 ks2 : list string) : Prop :=
  forall k, In k ks1 <-> In k ks2.

Definition spec_result_fields : list string :=
  [ "accuracy_rate"; "total_tables"; "total_cells"; "validation_errors";
    "csv_text"; "validation_results" ].

Definition spec_option_fields : list string :=
  [ "confidence_threshold"; "min_table_area"; "enabled_engines" ].

(** The same result with exactly the six fields of the specification. *)
Definition spec_shaped_response : val :=
  VObj [ ("accuracy_rate", VNum 0.995);
         ("total_tables", VNum 3);
         ("total_cells", VNum 150);
         ("validation_errors", VNum 2);
         ("csv_text", VStr "header1,header2,header3");
         ("validation_results", VArr []) ].

(** ** Checks over whole percentages *)

(** The integers from 0 to [n]. *)
Definition upto (n : nat) : list Z := map Z.of_nat (seq 0 (S n)).

(** Adding a whole percentage to a partial sum of at most [n] is exact. *)
Definition sums_exact (n : nat) : bool :=
  forallb
    (fun s =>
       forallb
         (fun c =>
            PrimFloat.Leibniz.eqb
              (ProcessingStatus.percent s + ProcessingStatus.percent c)
              (ProcessingStatus.percent (s + c)))
         (upto 100))
    (upto n).

(** The quarter of a sum [s] of four whole percentages: it is the exact
    quotient, it lies between 0 and 100, and it is 100 only for 400. *)
Definition quarter_exact (s : Z) : bool :=
  let t := (ProcessingStatus.percent s / 4)%float in
  match ProcessingStatus.float_to_Q t with
  | Some q => Qeq_bool q (inject_Z s / 4)
  | None => false
  end
  && ProcessingStatus.in_0_100 t
  && Bool.eqb (PrimFloat.eqb t 100) (s =? 400)%Z
  && Bool.eqb (ProcessingStatus.complete t) (s =? 400)%Z.

(** The number JavaScript writes 99.99999999999999: the float just below
    100. *)
Definition just_below_100 : float := PrimFloat.next_down 100.

(** ** Sample tables and facts about text *)

(** A table with an amount written with a thousands separator. *)
Definition rent_table : list (list string) :=
  [ ["Item"; "Amount"]; ["Rent"; "1,000"] ].

(** A size in inches and an address on two lines. *)
Definition inches : string := String "5" (String ResultsView.dquote "").

Definition two_lines : string :=
  "Main St" ++ String ResultsView.newline "Springfield".

(** Whether a code unit occurs in a string. *)
Fixpoint occurs (c : ascii) (s : string) : bool :=
  match s with
  | EmptyString => false
  | String c' s' => Ascii.eqb c' c || occurs c s'
  end.

(** A cell the generator writes as it is. *)
Definition plain (cell : string) : Prop := Core.needs_quoting cell = false.

(** ** Sample pages and tokens *)

(** A page whose only table has a grid of three columns and no row. *)
Definition rowless_page : list Core.Table := [ Core.mkTable 0 3 [] [] ].

(** A page with one table of three rows and three columns. *)
Definition clean_page : list Core.Table := [ Core.mkTable 3 3 [] [] ].

(** A page with one table of two rows and five columns and a warning on
    each of its cells. *)
Definition doubtful_page : list Core.Table :=
  [ Core.mkTable 2 5 []
      [ "low confidence"; "low confidence"; "low confidence";
        "low confidence"; "low confidence"; "low confidence";
        "low confidence"; "low confidence"; "low confidence";
        "low confidence" ] ].

(** A page with the same table without a warning, and a second table
    that has no row. *)
Definition broken_page : list Core.Table :=
  [ Core.mkTable 2 5 [] []; Core.mkTable 0 3 [] [] ].

(** Adding the bonus to the confidence. *)
Definition additive (confidence bonus : Q) : Q := confidence + bonus.

(** Three boxes a pixel apart. *)
Definition box1 : Core.BBox := Core.mkBBox 100 200 80 20.
Definition box2 : Core.BBox := Core.mkBBox 101 200 80 20.
Definition box3 : Core.BBox := Core.mkBBox 100 201 79 20.

(** Boxes are nearly identical when any two of them overlap beyond the
    clustering threshold. *)
Definition near_identical (boxes : list Core.BBox) : Prop :=
  forall p q, In p boxes -> In q boxes -> Core.iou_threshold < Core.iou p q.

(** Three readings of the word Total, by three engines, with confidences
    0.9, 0.85 and 0.4. *)
Definition readings_of_total (b1 b2 b3 : Core.BBox) (e1 e2 e3 : nat)
  : list Core.OcrToken :=
  [ Core.mkToken "Total" b1 (9 # 10) e1;
    Core.mkToken "Total" b2 (85 # 100) e2;
    Core.mkToken "Total" b3 (4 # 10) e3 ].

(** The weighted count of the errors and warnings of a page. *)
Definition weighted (w_error w_warning : Q) (tables : list Core.Table) : Q :=
  w_error * Core.count (Core.validation_errors tables)
  + w_warning * Core.count (Core.validation_warnings tables).

(** A cluster is sound when it has a seed and every other member
    overlaps the seed beyond the clustering threshold. *)
Definition sound_cluster (c : Core.cluster) : Prop :=
  exists seed members,
    c = seed :: members /\
    forall t, In t members ->
              Core.iou_threshold < Core.iou (Core.bbox seed) (Core.bbox t).

(** A table without rows or without columns. *)
Definition degenerate (t : Core.Table) : bool :=
  (Core.rows t =? 0)%nat || (Core.cols t =? 0)%nat.

(** ** Runs of the application *)

(** The state after a sequence of actions. *)
Definition reduce (s : obj) (actions : list action) : obj :=
  fold_left appReducer actions s.

Definition SET_PROCESSING_PROGRESS (p : val) : action :=
  mkAction (VStr "SET_PROCESSING_PROGRESS") p.

(** The progress record after [SET_PROCESSING_PROGRESS] has merged four
    entries of its own into the initial one: the four stages at 0 and
    four more entries at 100. *)
Definition overfull_progress : val :=
  obj_read "processingProgress"
    (appReducer initialState
       (SET_PROCESSING_PROGRESS
          (VObj [ ("a", VNum 100); ("b", VNum 100);
                  ("c", VNum 100); ("d", VNum 100) ]))).

(** What the upload component does between two renders: a whole [onDrop],
    which is synchronous, or one effect of a running [handleProcess],
    which may be interleaved with drops at its awaits. *)
Inductive block : list effect -> Prop :=
| block_drop acceptedFiles : block (onDrop acceptedFiles)
| block_handler host file upload extraction e :
    In e (trace host file upload extraction) -> block [e].

(** The component's file and the shared state's agree. *)
Definition files_agree (st : local * obj) : Prop :=
  obj_read "uploadedFile" (snd st)
  = match uploadedFile (fst st) with
    | Some f => VFile f
    | None => VNull
    end.

(** An effect of the handler is no [setUploadedFile] and dispatches none
    of the actions that write [uploadedFile]. *)
Definition keeps_file (e : effect) : Prop :=
  match e with
  | SetUploadedFile _ => False
  | Dispatch a =>
      exists t, type a = VStr t /\
                t <> "SET_UPLOADED_FILE" /\ t <> "RESET_STATE"
  | _ => True
  end.

(** The statuses the comment of [initialState] lists. *)
Definition known_statuses : list string :=
  [ "idle"; "uploading"; "processing"; "completed"; "error" ].

(** The actions the upload component dispatches. *)
Definition component_action (a : action) : Prop :=
  (type a = VStr "SET_PROCESSING_STATUS" /\
   (payload a = VStr "uploading" \/ payload a = VStr "processing")) \/
  type a = VStr "SET_EXTRACTION_RESULTS" \/
  type a = VStr "SET_ACCURACY_METRICS" \/
  type a = VStr "SET_ERROR" \/
  type a = VStr "SET_UPLOADED_FILE".

Definition component_effect (e : effect) : Prop :=
  match e with
  | Dispatch a => component_action a
  | _ => True
  end.

(** [disabled={!uploadedFile || isProcessing}] of the process button
    (DocumentUpload.js, line 290). *)
Definition buttonDisabled (l : local) : bool :=
  match uploadedFile l with
  | Some _ => isProcessing l
  | None => true
  end.

(** An effect that is no [setIsProcessing]. *)
Definition keeps_flag (e : effect) : Prop :=
  match e with
  | SetIsProcessing _ => False
  | _ => True
  end.

(** The paths a trace navigates to. *)
Definition navigations (es : list effect) : list string :=
  flat_map (fun e => match e with Navigate p => [p] | _ => [] end) es.

(** The toasts of a trace. *)
Definition toasts (es : list effect) : list string :=
  flat_map (fun e => match e with ToastError m => [m] | _ => [] end) es.

(** How often a code unit occurs in a string. *)
Fixpoint count_units (c : ascii) (s : string) : nat :=
  match s with
  | EmptyString => 0
  | String c' s' => (if Ascii.eqb c' c then 1 else 0) + count_units c s'
  end.

(** Whether a pattern occurs in a string. *)
Fixpoint occurs_in (pattern s : string) : bool :=
  String.prefix pattern s
  || match s with
     | EmptyString => false
     | String _ s' => occurs_in pattern s'
     end.

(** Whole percentages at which a step counts as completed. *)
Definition completed_exact (n : Z) : bool :=
  Bool.eqb (PrimFloat.leb 100 (ProcessingStatus.percent n)) (n =? 100)%Z.

(** ** Properties of objects *)

Lemma obj_get_replace_same k v o :
  obj_has k o = true -> obj_get k (obj_replace k v o) = Some v.
Proof.
  unfold obj_has.
  induction o as [|[k' v'] o IH]; simpl; [discriminate|].
  destruct (String.eqb k k') eqn:E; simpl.
  - now rewrite String.eqb_refl.
  - rewrite E. exact IH.
Qed.

Lemma obj_get_replace_other k k' v o :
  k' <> k -> obj_get k' (obj_replace k v o) = obj_get k' o.
Proof.
  intros Hne.
  induction o as [|[k1 v1] o IH]; simpl; [reflexivity|].
  destruct (String.eqb k k1) eqn:E; simpl.
  - apply String.eqb_eq in E; subst k1.
    destruct (String.eqb k' k) eqn:E'; [|reflexivity].
    apply String.eqb_eq in E'. contradiction.
  - destruct (String.eqb k' k1); [reflexivity|exact IH].
Qed.

Lemma obj_get_insert_index_same n k v o :
  obj_get k o = None -> obj_get k (obj_insert_index n k v o) = Some v.
Proof.
  induction o as [|[k1 v1] o IH]; simpl; intros Hn.
  - now rewrite String.eqb_refl.
  - destruct (String.eqb k k1) eqn:E; [discriminate|].
    destruct (array_index k1) as [m|]; simpl.
    + destruct (N.ltb m n); simpl.
      * rewrite E. now apply IH.
      * now rewrite String.eqb_refl.
    + now rewrite String.eqb_refl.
Qed.

Lemma obj_get_insert_index_other n k k' v o :
  k' <> k -> obj_get k' (obj_insert_index n k v o) = obj_get k' o.
Proof.
  intros Hne.
  assert (Hk : String.eqb k' k = false) by now apply String.eqb_neq.
  induction o as [|[k1 v1] o IH]; simpl.
  - now rewrite Hk.
  - destruct (array_index k1) as [m|]; simpl.
    + destruct (N.ltb m n); simpl.
      * destruct (String.eqb k' k1); [reflexivity|exact IH].
      * now rewrite Hk.
    + now rewrite Hk.
Qed.

Lemma obj_get_app k o1 o2 :
  obj_get k (o1 ++ o2) =
  match obj_get k o1 with Some v => Some v | None => obj_get k o2 end.
Proof.
  induction o1 as [|[k1 v1] o1 IH]; simpl; [reflexivity|].
  destruct (String.eqb k k1); [reflexivity|exact IH].
Qed.

Lemma obj_get_set_same k v o : obj_get k (obj_set k v o) = Some v.
Proof.
  unfold obj_set.
  destruct (obj_has k o) eqn:H.
  - now apply obj_get_replace_same.
  - assert (Hn : obj_get k o = None).
    { unfold obj_has in H. destruct (obj_get k o); [discriminate|reflexivity]. }
    destruct (array_index k).
    + now apply obj_get_insert_index_same.
    + rewrite obj_get_app, Hn. simpl. now rewrite String.eqb_refl.
Qed.

Lemma obj_get_set_other k k' v o :
  k' <> k -> obj_get k' (obj_set k v o) = obj_get k' o.
Proof.
  intros Hne. unfold obj_set.
  destruct (obj_has k o).
  - now apply obj_get_replace_other.
  - destruct (array_index k).
    + now apply obj_get_insert_index_other.
    + rewrite obj_get_app. destruct (obj_get k' o); [reflexivity|].
      simpl. apply String.eqb_neq in Hne. now rewrite Hne.
Qed.

Lemma obj_read_set_same k v o : obj_read k (obj_set k v o) = v.
Proof. unfold obj_read. now rewrite obj_get_set_same. Qed.

Lemma obj_read_set_other k k' v o :
  k' <> k -> obj_read k' (obj_set k v o) = obj_read k' o.
Proof. intros H. unfold obj_read. now rewrite obj_get_set_other. Qed.

(** ** The reducer *)

Lemma appReducer_unhandled_string s t p :
  ~ In t handled_types -> appReducer s (mkAction (VStr t) p) = s.
Proof.
  intros Hn. unfold appReducer; simpl.
  repeat match goal with
  | |- context [String.eqb t ?c] =>
      destruct (String.eqb_spec t c) as [->|_];
      [exfalso; apply Hn; simpl; tauto|]
  end.
  reflexivity.
Qed.

(** C8. [SET_ERROR] stores its payload in [error], sets [processingStatus]
    to ['error'] and leaves every other property of the state as it was;
    an action whose type is none of the eight handled ones returns the
    state itself. *)
Theorem appReducer_SET_ERROR_and_default :
  (forall (s : obj) (p : val),
      let s' := appReducer s (mkAction (VStr "SET_ERROR") p) in
      obj_read "error" s' = p /\
      obj_read "processingStatus" s' = VStr "error" /\
      (forall k, k <> "error" -> k <> "processingStatus" ->
                 obj_get k s' = obj_get k s)) /\
  (forall (s : obj) (a : action),
      (forall t, type a = VStr t -> ~ In t handled_types) ->
      appReducer s a = s).
Proof.
  split.
  - intros s p s'. subst s'. unfold appReducer; simpl.
    repeat split.
    + rewrite obj_read_set_other by discriminate.
      apply obj_read_set_same.
    + apply obj_read_set_same.
    + intros k H1 H2.
      rewrite obj_get_set_other by assumption.
      now rewrite obj_get_set_other by assumption.
  - intros s [t p] Hn. simpl in Hn.
    destruct t; try reflexivity.
    apply appReducer_unhandled_string. now apply Hn.
Qed.

Lemma appReducer_SET_ERROR_and_default_witness :
  appReducer initialState (mkAction (VStr "NO_SUCH_ACTION") VNull) = initialState.
Proof.
  apply (proj2 appReducer_SET_ERROR_and_default).
  simpl. intros t Ht. injection Ht as <-.
  simpl. intros H.
  repeat (destruct H as [H|H]; [discriminate H|]).
  exact H.
Defined.

(** ** The upload handler *)

Lemma get_prop_defined v k x :
  get_prop v k = Some x ->
  forall k', get_prop v k' = Some (obj_read k' (own_props v)).
Proof. destruct v; simpl; intros H k'; try discriminate; reflexivity. Qed.

(** The trace of a run, path by path. *)
Lemma trace_paths host file upload extraction :
  trace host (Some file) upload extraction =
  [ SetIsProcessing true;
    Dispatch (mkAction (VStr "SET_PROCESSING_STATUS") (VStr "uploading"));
    Post "/upload" (VObj [("file", VFile file)]) ]
  ++ after_upload host upload extraction
  ++ [SetIsProcessing false].
Proof.
  unfold trace, handleProcess, tryBlock, after_upload, read.
  destruct upload as [udata|umsg]; cbn; [|reflexivity].
  destruct (get_prop udata "filepath") as [fp|]; cbn; [|reflexivity].
  destruct (truthy fp); cbn; [|reflexivity].
  unfold after_extraction.
  destruct extraction as [data|msg]; cbn; [|reflexivity].
  destruct (get_prop data "success") as [s|] eqn:Hs; cbn; [|reflexivity].
  pose proof (get_prop_defined _ _ _ Hs) as Hd.
  destruct (truthy s); cbn.
  - rewrite !Hd. cbn. reflexivity.
  - rewrite !Hd. cbn. reflexivity.
Qed.

Lemma trace_no_file host upload extraction :
  trace host None upload extraction = [].
Proof. reflexivity. Qed.

Lemma dispatches_app t es1 es2 :
  dispatches t (es1 ++ es2) = dispatches t es1 ++ dispatches t es2.
Proof. unfold dispatches. now rewrite flat_map_app. Qed.

Lemma posts_app p es1 es2 :
  posts p (es1 ++ es2) = posts p es1 ++ posts p es2.
Proof. unfold posts. now rewrite flat_map_app. Qed.

(** Every run with a file ends in exactly one of three ways: the upload
    answered without a usable [filepath] and nothing was reported; the
    results were dispatched once and no error; an error was dispatched once
    and no results. *)
Lemma handleProcess_outcomes host file upload extraction :
  let es := trace host (Some file) upload extraction in
  (exists data filepath,
      upload = Resolves data /\ get_prop data "filepath" = Some filepath /\
      truthy filepath = false /\
      dispatches "SET_EXTRACTION_RESULTS" es = [] /\
      dispatches "SET_ERROR" es = [])
  \/ (exists data,
         extraction = Resolves data /\
         dispatches "SET_EXTRACTION_RESULTS" es = [data] /\
         dispatches "SET_ERROR" es = [])
  \/ (exists message,
         dispatches "SET_EXTRACTION_RESULTS" es = [] /\
         dispatches "SET_ERROR" es = [VStr message]).
Proof.
  intros es. subst es. rewrite trace_paths.
  unfold after_upload.
  destruct upload as [udata|umsg]; [|right; right; now eexists].
  destruct (get_prop udata "filepath") as [fp|] eqn:Hfp;
    [|right; right; now eexists].
  destruct (truthy fp) eqn:Ht.
  - right. unfold after_extraction.
    destruct extraction as [data|msg]; [|right; now eexists].
    destruct (get_prop data "success") as [s|]; [|right; now eexists].
    destruct (truthy s).
    + left. now exists data.
    + right. now eexists.
  - left. exists udata, fp. repeat split; assumption || reflexivity.
Qed.

(** C2. A run of [handleProcess] whose upload request resolves with data
    that carries no usable [filepath] dispatches neither
    [SET_EXTRACTION_RESULTS] nor [SET_ERROR]: the caller gets neither a
    result nor a failure, and the state stays at ['uploading']. *)
Theorem handleProcess_silent_without_filepath :
  forall host file data filepath extraction,
    get_prop data "filepath" = Some filepath ->
    truthy filepath = false ->
    let es := trace host (Some file) (Resolves data) extraction in
    es = [ SetIsProcessing true;
           Dispatch (mkAction (VStr "SET_PROCESSING_STATUS")
                       (VStr "uploading"));
           Post "/upload" (VObj [("file", VFile file)]);
           SetIsProcessing false ] /\
    dispatches "SET_EXTRACTION_RESULTS" es = [] /\
    dispatches "SET_ERROR" es = [] /\
    forall st,
      obj_read "processingStatus" (snd (apply_effects st es))
      = VStr "uploading".
Proof.
  intros host file data fp extraction Hfp Ht es. subst es.
  rewrite trace_paths. unfold after_upload. rewrite Hfp, Ht.
  cbn. repeat split.
  intros st. unfold appReducer; cbn. apply obj_read_set_same.
Qed.

Lemma handleProcess_silent_without_filepath_witness :
  dispatches "SET_EXTRACTION_RESULTS"
    (trace a_host (Some a_file) (Resolves upload_without_filepath)
       (Rejects "not reached")) = [] /\
  dispatches "SET_ERROR"
    (trace a_host (Some a_file) (Resolves upload_without_filepath)
       (Rejects "not reached")) = [].
Proof.
  pose proof (handleProcess_silent_without_filepath a_host a_file
                upload_without_filepath VUndef (Rejects "not reached")
                eq_refl eq_refl) as H.
  cbv zeta in H. split; apply H.
Defined.

Lemma appReducer_frame s t p k :
  (t = "SET_UPLOADED_FILE" -> k <> "uploadedFile" /\ k <> "processingStatus") ->
  (t = "SET_PROCESSING_STATUS" -> k <> "processingStatus") ->
  (t = "SET_EXTRACTION_RESULTS" ->
   k <> "extractionResults" /\ k <> "processingStatus") ->
  (t = "SET_ACCURACY_METRICS" -> k <> "accuracyMetrics") ->
  (t = "SET_CURRENT_STEP" -> k <> "currentStep") ->
  (t = "SET_ERROR" -> k <> "error" /\ k <> "processingStatus") ->
  (t = "SET_PROCESSING_PROGRESS" -> k <> "processingProgress") ->
  t <> "RESET_STATE" ->
  obj_get k (appReducer s (mkAction (VStr t) p)) = obj_get k s.
Proof.
  intros H1 H2 H3 H4 H5 H6 H7 H8. unfold appReducer; simpl.
  repeat match goal with
  | |- context [String.eqb t ?c] =>
      destruct (String.eqb_spec t c) as [E|_]
  end; try reflexivity;
  try (rewrite !obj_get_set_other; [reflexivity|tauto..]).
  contradiction.
Qed.

(** [extractionResults] changes under no action but the one that sets it
    and the reset. *)
Lemma extractionResults_frame s a :
  (forall t, type a = VStr t ->
             t <> "SET_EXTRACTION_RESULTS" /\ t <> "RESET_STATE") ->
  obj_get "extractionResults" (appReducer s a)
  = obj_get "extractionResults" s.
Proof.
  destruct a as [ty p]; simpl. intros H.
  destruct ty; try reflexivity.
  destruct (H s0 eq_refl) as [Hr Hz].
  apply appReducer_frame; try (intros ->; split; discriminate);
    try (intros ->; discriminate); try assumption.
  intros E. contradiction.
Qed.

Ltac handler_paths :=
  rewrite trace_paths; unfold after_upload, after_extraction;
  repeat match goal with
  | |- context [match ?o with Resolves _ => _ | Rejects _ => _ end] =>
      destruct o
  | |- context [match get_prop ?d ?k with Some _ => _ | None => _ end] =>
      let E := fresh "Eprop" in destruct (get_prop d k) eqn:E
  | |- context [if truthy ?v then _ else _] =>
      let E := fresh "Etruthy" in destruct (truthy v) eqn:E
  end.

Lemma indexed_from_keys k n xs :
  NilZero.uint_of_string k = None -> obj_get k (indexed_from n xs) = None.
Proof.
  intros Hk. revert n.
  induction xs as [|x xs IH]; intros n; simpl; [reflexivity|].
  destruct (String.eqb_spec k (index_name n)) as [->|_]; [|apply IH].
  unfold index_name in Hk.
  destruct (NilZero.usu_gen (N.to_uint n)) as [E|E];
    rewrite E in Hk; discriminate.
Qed.

Lemma truthy_prop_object d k v :
  NilZero.uint_of_string k = None ->
  get_prop d k = Some v -> truthy v = true ->
  exists o, d = VObj o /\ obj_get k o = Some v.
Proof.
  intros Hk Hget Ht.
  destruct d; simpl in Hget; try discriminate;
    injection Hget as <-; unfold obj_read in Ht; simpl in Ht;
    try discriminate.
  - rewrite (indexed_from_keys _ _ _ Hk) in Ht. discriminate.
  - rewrite (indexed_from_keys _ _ _ Hk) in Ht. discriminate.
  - exists props. split; [reflexivity|].
    unfold obj_read. destruct (obj_get k props); [reflexivity|discriminate].
Qed.

(** C3, as the code has it. What [handleProcess] takes for the result of
    a successful extraction is the data of the resolved request, an
    object with a truthy [success] of its own, and nothing else is asked
    of it: after an upload that gave a path, any such object is
    dispatched, once. The metrics are copied from its [accuracy_rate],
    [total_cells] and [validation_errors] as they are found. The view
    reads its CSV from [csv_data] and ignores a [csv_text]. The reducer
    stores the object as it is, and no later action but
    [SET_EXTRACTION_RESULTS] and [RESET_STATE] touches what is stored. *)
Theorem extraction_result_as_consumed :
  forall host file upload extraction,
    let es := trace host (Some file) upload extraction in
    (forall d,
        In d (dispatches "SET_EXTRACTION_RESULTS" es) ->
        extraction = Resolves d /\
        (exists o s,
            d = VObj o /\ obj_get "success" o = Some s /\ truthy s = true /\
            dispatches "SET_ACCURACY_METRICS" es
            = [ VObj [ ("accuracy_rate", obj_read "accuracy_rate" o);
                       ("total_cells", obj_read "total_cells" o);
                       ("validation_errors",
                         obj_read "validation_errors" o) ] ]) /\
        dispatches "SET_EXTRACTION_RESULTS" es = [d] /\
        (forall st,
            obj_read "extractionResults" (snd (apply_effects st es)) = d)) /\
    (forall uploaded filepath o s,
        upload = Resolves uploaded ->
        get_prop uploaded "filepath" = Some filepath ->
        truthy filepath = true ->
        extraction = Resolves (VObj o) ->
        obj_get "success" o = Some s ->
        truthy s = true ->
        dispatches "SET_EXTRACTION_RESULTS" es = [VObj o]) /\
    (forall o v,
        ResultsView.formatCSVData (VObj (obj_set "csv_text" v o))
        = ResultsView.formatCSVData (VObj o) /\
        ResultsView.formatCSVData (VObj (obj_set "csv_data" v o))
        = ResultsView.formatCSV v) /\
    (forall s a,
        (forall t, type a = VStr t ->
                   t <> "SET_EXTRACTION_RESULTS" /\ t <> "RESET_STATE") ->
        obj_get "extractionResults" (appReducer s a)
        = obj_get "extractionResults" s).
Proof.
  intros host file upload extraction. cbv zeta.
  split; [|split; [|split]].
  - intros d.
    handler_paths; cbn; try tauto.
    intros [<-|[]].
    split; [reflexivity|].
    destruct (truthy_prop_object data0 "success" v0 eq_refl Eprop0 Etruthy0)
      as (o & -> & Ho).
    split; [exists o, v0; repeat split; assumption|].
    split; [reflexivity|].
    intros st.
    rewrite obj_read_set_other by discriminate.
    rewrite obj_read_set_other by discriminate.
    apply obj_read_set_same.
  - intros uploaded filepath o s -> Hpath Htruthy -> Hs Hsuccess.
    rewrite trace_paths. unfold after_upload, after_extraction.
    rewrite Hpath, Htruthy.
    assert (E : get_prop (VObj o) "success" = Some s)
      by (simpl; unfold obj_read; now rewrite Hs).
    rewrite E, Hsuccess. reflexivity.
  - intros o v. unfold ResultsView.formatCSVData, ResultsView.csv_data.
    cbn [own_props]. split.
    + now rewrite obj_read_set_other by discriminate.
    + now rewrite obj_read_set_same.
  - intros s a. apply extractionResults_frame.
Qed.

Lemma extraction_result_as_consumed_witness :
  dispatches "SET_EXTRACTION_RESULTS"
    (trace a_host (Some a_file) (Resolves upload_with_filepath)
       (Resolves documented_response))
  = [documented_response] /\
  obj_read "extractionResults"
    (snd (apply_effects (initialLocal, initialState)
            (trace a_host (Some a_file) (Resolves upload_with_filepath)
               (Resolves documented_response))))
  = documented_response.
Proof.
  destruct (extraction_result_as_consumed a_host a_file
              (Resolves upload_with_filepath)
              (Resolves documented_response))
    as (Hd & Hany & _).
  split.
  - apply (Hany upload_with_filepath (VStr "uploads/scan.pdf") _
             (VBool true));
      reflexivity.
  - apply (Hd documented_response). simpl. tauto.
Defined.

(** C3, as the specification words it, fails: the documented response of
    a successful extraction is accepted, has a [success] field and carries
    its CSV in [csv_data], not in [csv_text]; an object of exactly the six
    fields of the specification is taken for a failed extraction, and the
    view finds no CSV in it. *)
Lemma extraction_result_fields_counterexample :
  dispatches "SET_EXTRACTION_RESULTS"
    (trace a_host (Some a_file) (Resolves upload_with_filepath)
       (Resolves documented_response)) = [documented_response] /\
  ~ same_fields (obj_keys (own_props documented_response))
      spec_result_fields /\
  obj_get "csv_text" (own_props documented_response) = None /\
  In "csv_data" ResultsView.destructured /\
  ~ In "csv_text" ResultsView.destructured /\
  ResultsView.formatCSVData documented_response
  = Some [["header1"; "header2"; "header3"]] /\
  same_fields (obj_keys (own_props spec_shaped_response))
    spec_result_fields /\
  dispatches "SET_EXTRACTION_RESULTS"
    (trace a_host (Some a_file) (Resolves upload_with_filepath)
       (Resolves spec_shaped_response)) = [] /\
  dispatches "SET_ERROR"
    (trace a_host (Some a_file) (Resolves upload_with_filepath)
       (Resolves spec_shaped_response)) = [VStr "Extraction failed"] /\
  ResultsView.formatCSVData spec_shaped_response = Some [].
Proof.
  split; [reflexivity|].
  split.
  { intros H. destruct (proj1 (H "success")) as [E|E].
    - simpl. tauto.
    - discriminate E.
    - simpl in E.
      repeat (destruct E as [E|E]; [discriminate E|]). exact E. }
  split; [reflexivity|].
  split; [simpl; tauto|].
  split.
  { simpl. intros H.
    repeat (destruct H as [H|H]; [discriminate H|]). exact H. }
  split; [reflexivity|].
  split; [intros k; reflexivity|].
  repeat split; reflexivity.
Qed.

(** C4, as the code has it. Every request [handleProcess] sends to
    [/extract] carries the [filepath] the upload answered and the options
    [enable_preview: true] and [confidence_threshold: 0.7], and nothing
    else. *)
Theorem extract_request_as_sent :
  forall host file upload extraction body,
    In body (posts "/extract" (trace host file upload extraction)) ->
    exists data filepath,
      upload = Resolves data /\
      get_prop data "filepath" = Some filepath /\
      truthy filepath = true /\
      body = VObj [ ("filepath", filepath);
                    ("options",
                      VObj [ ("enable_preview", VBool true);
                             ("confidence_threshold", VNum 0.7) ]) ].
Proof.
  intros host [file|] upload extraction body; [|intros []].
  handler_paths; cbn; try tauto;
    (intros [<-|[]]; do 2 eexists; repeat split; eassumption).
Qed.

Lemma extract_request_as_sent_witness :
  exists data filepath,
    Resolves upload_with_filepath = Resolves data /\
    get_prop data "filepath" = Some filepath /\
    truthy filepath = true /\
    extractRequest (VStr "uploads/scan.pdf")
    = VObj [ ("filepath", filepath);
             ("options",
               VObj [ ("enable_preview", VBool true);
                      ("confidence_threshold", VNum 0.7) ]) ].
Proof.
  apply (extract_request_as_sent a_host (Some a_file)
           (Resolves upload_with_filepath) (Rejects "Network Error")).
  simpl. left. reflexivity.
Defined.

(** C4, as the specification words it, fails: the options of the request
    sent for a sample run have the fields [enable_preview] and
    [confidence_threshold], not [confidence_threshold], [min_table_area]
    and [enabled_engines]. *)
Lemma extract_options_counterexample :
  exists options,
    posts "/extract"
      (trace a_host (Some a_file) (Resolves upload_with_filepath)
         (Resolves documented_response))
    = [ VObj [ ("filepath", VStr "uploads/scan.pdf");
               ("options", VObj options) ] ] /\
    obj_keys options = ["enable_preview"; "confidence_threshold"] /\
    ~ same_fields (obj_keys options) spec_option_fields.
Proof.
  eexists. split; [reflexivity|]. split; [reflexivity|].
  intros H. destruct (proj2 (H "min_table_area")) as [E|[E|[]]].
  - simpl. tauto.
  - discriminate E.
  - discriminate E.
Qed.

(** ** Dropping files *)




(** ** Overall progress *)

Import ProcessingStatus.

Lemma In_upto n z : (0 <= z <= Z.of_nat n)%Z -> In z (upto n).
Proof.
  intros H. unfold upto. apply in_map_iff.
  exists (Z.to_nat z). split; [lia|].
  apply in_seq. lia.
Qed.

Lemma sums_exact_300 : sums_exact 300 = true.
Proof. vm_compute. reflexivity. Qed.

Lemma percent_plus s c :
  (0 <= s <= 300)%Z -> (0 <= c <= 100)%Z ->
  (percent s + percent c)%float = percent (s + c).
Proof.
  intros Hs Hc.
  pose proof sums_exact_300 as H. unfold sums_exact in H.
  rewrite forallb_forall in H.
  specialize (H s (In_upto 300 s Hs)).
  rewrite forallb_forall in H.
  specialize (H c (In_upto 100 c Hc)).
  now apply FloatAxioms.Leibniz.eqb_spec.
Qed.

Lemma quarter_exact_400 : forallb quarter_exact (upto 400) = true.
Proof. vm_compute. reflexivity. Qed.

Lemma quarter_of_sum s :
  (0 <= s <= 400)%Z -> quarter_exact s = true.
Proof.
  intros Hs. pose proof quarter_exact_400 as H.
  rewrite forallb_forall in H. apply H. now apply In_upto.
Qed.

Lemma reduce_sum_percents a b c d :
  (0 <= a <= 100)%Z -> (0 <= b <= 100)%Z ->
  (0 <= c <= 100)%Z -> (0 <= d <= 100)%Z ->
  reduce_sum [VNum (percent a); VNum (percent b);
              VNum (percent c); VNum (percent d)]
  = Some (VNum (percent (a + b + c + d))).
Proof.
  intros Ha Hb Hc Hd. unfold reduce_sum; cbn.
  fold (percent a) (percent b) (percent c) (percent d)
       (percent (a + b + c + d)).
  change 0%float with (percent 0).
  rewrite (percent_plus 0 a) by lia.
  rewrite (percent_plus (0 + a) b) by lia.
  rewrite (percent_plus (0 + a + b) c) by lia.
  rewrite (percent_plus (0 + a + b + c) d) by lia.
  reflexivity.
Qed.

(** The sum is computed exactly when no value concatenates. *)
Lemma reduce_sum_computed values :
  (exists total, reduce_sum values = Some (VNum total))
  <-> Forall (fun v => concatenates v = false) values.
Proof.
  unfold reduce_sum.
  assert (Hnone : forall vs,
             fold_left
               (fun acc v =>
                  match acc with Some sum => plus sum v | None => None end)
               vs None = None)
    by (induction vs as [|v vs IH]; [reflexivity|exact IH]).
  generalize 0%float as start. induction values as [|v values IH];
    intros start; simpl.
  - split; [constructor|]. intros _. now exists start.
  - unfold plus at 2. simpl to_number at 1.
    destruct v as [| |b|x|t|xs|o|f]; simpl to_number;
      try (rewrite Hnone; split;
           [intros (total & H); discriminate H
           |intros H; inversion H; discriminate]);
      try destruct b;
      (rewrite IH; split;
       [intros H; constructor; [reflexivity|exact H]
       |intros H; now inversion H]).
Qed.

(** What [None] stands for in [totalProgress]: the [TypeError] of
    [Object.values], or a sum that is a concatenation. *)
Lemma totalProgress_not_computed processingProgress :
  totalProgress processingProgress = None <->
  values_throw processingProgress = true \/
  Exists (fun v => concatenates v = true)
         (obj_values (own_props processingProgress)).
Proof.
  assert (H : forall values,
             match reduce_sum values with
             | Some (VNum total) => Some (total / 4)%float
             | _ => None
             end = None
             <-> Exists (fun v => concatenates v = true) values).
  { intros values. rewrite Exists_exists.
    pose proof (reduce_sum_computed values) as Hsum.
    rewrite Forall_forall in Hsum. split.
    - intros Hnone.
      destruct (existsb concatenates values) eqn:E.
      + apply existsb_exists in E. exact E.
      + destruct (proj2 Hsum) as (total & Htotal).
        * intros v Hv.
          destruct (concatenates v) eqn:Ev; [|reflexivity].
          assert (existsb concatenates values = true)
            by (apply existsb_exists; now exists v).
          congruence.
        * rewrite Htotal in Hnone. discriminate Hnone.
    - intros (v & Hv & Ev).
      destruct (reduce_sum values) as [[| |b|x|t|xs|o|f]|] eqn:Er;
        try reflexivity.
      rewrite (proj1 Hsum (ex_intro _ x eq_refl) v Hv) in Ev.
      discriminate Ev. }
  unfold totalProgress.
  destruct processingProgress as [| |b|x|t|xs|o|f]; simpl values_throw;
    try (rewrite H; split; [intros E; now right|intros [E|E]; [discriminate E|exact E]]);
    (split; [intros _; now left|reflexivity]).
Qed.

(** What [None] stands for in [getStepStatus]: the [TypeError] for an
    index without a step, or a progress that is not read as a number. *)
Lemma getStepStatus_not_computed progresses current i :
  getStepStatus progresses current i = None <->
  nth_error progresses i = None \/
  exists v, nth_error progresses i = Some v /\ concatenates v = true.
Proof.
  unfold getStepStatus, at_least_100.
  destruct (nth_error progresses i) as [v|]; [|split; [now left|reflexivity]].
  split.
  - intros H. right. exists v. split; [reflexivity|].
    destruct v as [| |b|x|t|xs|o|f]; simpl in *; try reflexivity;
      try destruct b;
      repeat match type of H with
             | context [if ?c then _ else _] => destruct c
             end; discriminate H.
  - intros [H|(v' & Hv & Ev)]; [discriminate H|].
    injection Hv as <-.
    destruct v as [| |b|x|t|xs|o|f]; simpl in *; try reflexivity;
      discriminate Ev.
Qed.

(** C9, as the code computes it. For a progress record of exactly four
    entries (the four stages and nothing else, whatever their order),
    each a whole number between 0 and 100, the overall progress is the
    exact arithmetic mean of the four, lies between 0 and 100, and is 100
    (so that the run shows as complete) exactly when all four are 100. *)
Theorem totalProgress_whole_percentages :
  forall (a b c d : Z) (o : obj),
    (0 <= a <= 100)%Z -> (0 <= b <= 100)%Z ->
    (0 <= c <= 100)%Z -> (0 <= d <= 100)%Z ->
    obj_values o = [ VNum (percent a); VNum (percent b);
                     VNum (percent c); VNum (percent d) ] ->
    exists t q,
      totalProgress (VObj o) = Some t /\
      float_to_Q t = Some q /\
      (q == inject_Z (a + b + c + d) / 4)%Q /\
      in_0_100 t = true /\
      (PrimFloat.eqb t 100 = true <->
       a = 100%Z /\ b = 100%Z /\ c = 100%Z /\ d = 100%Z) /\
      (complete t = true <->
       a = 100%Z /\ b = 100%Z /\ c = 100%Z /\ d = 100%Z).
Proof.
  intros a b c d o Ha Hb Hc Hd Ho.
  assert (Hs : (0 <= a + b + c + d <= 400)%Z) by lia.
  pose proof (quarter_of_sum _ Hs) as H.
  unfold quarter_exact in H. cbv zeta in H.
  apply andb_prop in H. destruct H as [H Hcomplete].
  apply andb_prop in H. destruct H as [H Hhundred].
  apply andb_prop in H. destruct H as [Hmean Hrange].
  destruct (float_to_Q (percent (a + b + c + d) / 4)) as [q|] eqn:Hq;
    [|discriminate].
  exists (percent (a + b + c + d) / 4)%float, q.
  split.
  { unfold totalProgress. cbn [own_props]. rewrite Ho.
    now rewrite reduce_sum_percents. }
  split; [exact Hq|].
  split; [now apply Qeq_bool_iff|].
  split; [exact Hrange|].
  apply Bool.eqb_prop in Hhundred, Hcomplete.
  rewrite Hhundred, Hcomplete, Z.eqb_eq. split; split; lia.
Qed.

Lemma totalProgress_whole_percentages_witness :
  exists t q,
    totalProgress (progress (percent 10) (percent 20) (percent 30) (percent 41))
    = Some t /\
    float_to_Q t = Some q /\
    (q == inject_Z (10 + 20 + 30 + 41) / 4)%Q /\
    in_0_100 t = true /\
    (PrimFloat.eqb t 100 = true <->
     10%Z = 100%Z /\ 20%Z = 100%Z /\ 30%Z = 100%Z /\ 41%Z = 100%Z) /\
    (complete t = true <->
     10%Z = 100%Z /\ 20%Z = 100%Z /\ 30%Z = 100%Z /\ 41%Z = 100%Z).
Proof.
  apply (totalProgress_whole_percentages 10 20 30 41); try lia.
  reflexivity.
Defined.

(** C9, as stated for every record whose four stage values lie between
    0 and 100, fails in two ways. On rounding: with three stages at 100
    and the fourth at 99.99999999999999 the sum rounds to 400, so the
    overall progress is 100 and the run shows as complete, although one
    stage is below 100 and the arithmetic mean is not 100. On further
    entries: the reducer merges whatever [SET_PROCESSING_PROGRESS]
    carries, and the view sums every entry of the record; with the four
    stages at 0 and four more entries at 100 the overall progress is 100
    although the mean of the four stages is 0. *)
Lemma totalProgress_rounding_counterexample :
  (in_0_100 just_below_100 = true /\
   PrimFloat.eqb just_below_100 100 = false /\
   totalProgress (progress 100 100 100 just_below_100) = Some 100%float /\
   complete 100 = true /\
   exists q,
     float_to_Q just_below_100 = Some q /\
     ~ ((100 + 100 + 100 + q) / 4 == 100)%Q) /\
  (steps overfull_progress = Some [VNum 0; VNum 0; VNum 0; VNum 0] /\
   totalProgress overfull_progress = Some 100%float /\
   complete 100 = true).
Proof.
  split.
  - split; [reflexivity|]. split; [reflexivity|].
    split; [reflexivity|]. split; [reflexivity|].
    eexists. split; [vm_compute; reflexivity|].
    intros H. apply Qeq_bool_iff in H. vm_compute in H. discriminate H.
  - split; [reflexivity|]. split; reflexivity.
Qed.

(** ** CSV: writing and reading back *)

Import ResultsView Core.

Lemma split_without sep s : occurs sep s = false -> split sep s = [s].
Proof.
  induction s as [|c s IH]; simpl; [reflexivity|].
  destruct (Ascii.eqb c sep); simpl; [discriminate|].
  intros H. now rewrite IH.
Qed.

Lemma split_app sep p r :
  occurs sep p = false ->
  split sep (p ++ String sep r) = p :: split sep r.
Proof.
  induction p as [|c p IH]; simpl.
  - now rewrite Ascii.eqb_refl.
  - destruct (Ascii.eqb c sep); simpl; [discriminate|].
    intros H. now rewrite IH.
Qed.

Lemma split_join sep pieces :
  pieces <> [] ->
  Forall (fun p => occurs sep p = false) pieces ->
  split sep (join sep pieces) = pieces.
Proof.
  induction pieces as [|p rest IH]; [congruence|].
  intros _ H. inversion H as [|? ? Hp Hrest]; subst.
  destruct rest as [|p' rest'].
  - simpl. now apply split_without.
  - change (join sep (p :: p' :: rest'))
      with (p ++ String sep (join sep (p' :: rest')))%string.
    rewrite split_app by assumption.
    f_equal. apply IH; [discriminate|assumption].
Qed.

Lemma occurs_app c s1 s2 :
  occurs c (s1 ++ s2) = occurs c s1 || occurs c s2.
Proof.
  induction s1 as [|c1 s1 IH]; simpl; [reflexivity|].
  now rewrite IH, orb_assoc.
Qed.

Lemma occurs_join c sep pieces :
  Ascii.eqb sep c = false ->
  Forall (fun p => occurs c p = false) pieces ->
  occurs c (join sep pieces) = false.
Proof.
  intros Hsep. induction pieces as [|p rest IH]; [reflexivity|].
  intros H. inversion H as [|? ? Hp Hrest]; subst.
  destruct rest as [|p' rest']; [exact Hp|].
  change (join sep (p :: p' :: rest'))
    with (p ++ String sep (join sep (p' :: rest')))%string.
  rewrite occurs_app, Hp. simpl. rewrite Hsep. simpl. now apply IH.
Qed.

Lemma plain_occurs cell :
  plain cell ->
  occurs comma cell = false /\ occurs dquote cell = false /\
  occurs newline cell = false.
Proof.
  unfold plain. induction cell as [|c cell IH]; simpl; [tauto|].
  intros H.
  apply orb_false_elim in H. destruct H as [H Hrest].
  apply orb_false_elim in H. destruct H as [H Hn].
  apply orb_false_elim in H. destruct H as [Hc Hq].
  destruct (IH Hrest) as (IHc & IHq & IHn).
  rewrite Hc, Hq, Hn, IHc, IHq, IHn. repeat split.
Qed.

Lemma strip_quotes_without s :
  occurs dquote s = false -> strip_quotes s = s.
Proof.
  induction s as [|c s IH]; simpl; [reflexivity|].
  destruct (Ascii.eqb c dquote); simpl; [discriminate|].
  intros H. now rewrite IH.
Qed.

Lemma map_id_on {A} (f : A -> A) xs :
  Forall (fun x => f x = x) xs -> map f xs = xs.
Proof.
  induction 1 as [|x xs Hx _ IH]; simpl; [reflexivity|].
  now rewrite Hx, IH.
Qed.

(** Where the view's reading is right: a table with at least one row,
    no empty row and only plain cells, whose text is not empty, is read
    back as it was written. *)
Lemma formatCSV_serialize_plain matrix :
  matrix <> [] ->
  Forall (fun row => row <> [] /\ Forall plain row) matrix ->
  serialize matrix <> EmptyString ->
  formatCSV (VStr (serialize matrix)) = Some matrix.
Proof.
  intros Hne Hrows Htext. unfold formatCSV. simpl truthy.
  destruct (String.eqb_spec (serialize matrix) "") as [E|_];
    [contradiction|]. simpl. f_equal.
  unfold serialize.
  assert (Hline : forall row,
             Forall plain row -> join comma (map quote_cell row) = join comma row).
  { intros row Hrow. f_equal. apply map_id_on.
    eapply Forall_impl; [|exact Hrow].
    intros cell Hc. unfold quote_cell. now rewrite Hc. }
  rewrite split_join.
  - rewrite map_map. apply map_id_on.
    eapply Forall_impl; [|exact Hrows].
    intros row [Hrow Hcells]. simpl. rewrite (Hline row Hcells).
    rewrite split_join; [|assumption|].
    + apply map_id_on. eapply Forall_impl; [|exact Hcells].
      intros cell Hc. apply strip_quotes_without. now apply plain_occurs.
    + eapply Forall_impl; [|exact Hcells].
      intros cell Hc. now apply plain_occurs.
  - destruct matrix; [congruence|discriminate].
  - apply Forall_map. eapply Forall_impl; [|exact Hrows].
    intros row [_ Hcells]. simpl. rewrite (Hline row Hcells).
    apply occurs_join; [reflexivity|].
    eapply Forall_impl; [|exact Hcells].
    intros cell Hc. now apply plain_occurs.
Qed.

Lemma split_pieces_without sep s :
  Forall (fun p => occurs sep p = false) (split sep s).
Proof.
  induction s as [|c s IH]; simpl.
  - repeat constructor.
  - destruct (Ascii.eqb c sep) eqn:E.
    + constructor; [reflexivity|exact IH].
    + destruct (split sep s) as [|p ps].
      * constructor; [simpl; now rewrite E|constructor].
      * inversion IH as [|? ? Hp Hps]; subst.
        constructor; [simpl; now rewrite E|exact Hps].
Qed.

Lemma split_pieces_keep c sep s :
  occurs c s = false ->
  Forall (fun p => occurs c p = false) (split sep s).
Proof.
  induction s as [|c' s IH]; simpl; intros H.
  - repeat constructor.
  - apply orb_false_elim in H. destruct H as [Hc Hs].
    specialize (IH Hs).
    destruct (Ascii.eqb c' sep).
    + constructor; [reflexivity|exact IH].
    + destruct (split sep s) as [|p ps].
      * constructor; [simpl; now rewrite Hc|constructor].
      * inversion IH as [|? ? Hp Hps]; subst.
        constructor; [simpl; now rewrite Hc, Hp|exact Hps].
Qed.

Lemma strip_quotes_result s : occurs dquote (strip_quotes s) = false.
Proof.
  induction s as [|c s IH]; simpl; [reflexivity|].
  destruct (Ascii.eqb c dquote) eqn:E; [exact IH|].
  simpl. now rewrite E.
Qed.

Lemma strip_quotes_keep c s :
  occurs c s = false -> occurs c (strip_quotes s) = false.
Proof.
  induction s as [|c' s IH]; simpl; [reflexivity|].
  intros H. apply orb_false_elim in H. destruct H as [Hc Hs].
  destruct (Ascii.eqb c' dquote); [now apply IH|].
  simpl. rewrite Hc. now apply IH.
Qed.

Lemma needs_quoting_occurs cell :
  needs_quoting cell
  = occurs comma cell || occurs dquote cell || occurs newline cell.
Proof.
  induction cell as [|c cell IH]; simpl; [reflexivity|].
  rewrite IH.
  destruct (Ascii.eqb c comma), (Ascii.eqb c dquote), (Ascii.eqb c newline),
    (occurs comma cell), (occurs dquote cell), (occurs newline cell);
    reflexivity.
Qed.

(** Whatever text it is given, the view returns only plain cells. *)
Lemma formatCSV_cells_plain csv table :
  formatCSV csv = Some table -> Forall (Forall plain) table.
Proof.
  unfold formatCSV.
  destruct (negb (truthy csv)).
  { intros H. injection H as <-. constructor. }
  destruct csv as [| | | |text| | |]; try discriminate.
  intros H. injection H as <-.
  apply Forall_map.
  pose proof (split_pieces_without newline text) as Hlines.
  eapply Forall_impl; [|exact Hlines].
  intros line Hline. simpl.
  apply Forall_map.
  pose proof (split_pieces_without comma line) as Hc.
  pose proof (split_pieces_keep newline comma line Hline) as Hn.
  rewrite Forall_forall in Hc, Hn. apply Forall_forall.
  intros piece Hin. unfold plain. rewrite needs_quoting_occurs.
  rewrite (strip_quotes_keep comma piece (Hc piece Hin)).
  rewrite strip_quotes_result.
  now rewrite (strip_quotes_keep newline piece (Hn piece Hin)).
Qed.

(** C1. Reading back does not recover a table with a cell that the
    generator quotes (one with a comma, a quote or a newline): whatever
    the CSV text, [formatCSVData] returns no such cell, so it never
    returns that table, and in particular not from the text the generator
    writes for it. *)
Theorem formatCSVData_never_recovers_quoted_cell :
  forall table,
    Exists (fun row => Exists (fun cell => needs_quoting cell = true) row)
           table ->
    (forall extractionResults,
        formatCSVData extractionResults <> Some table) /\
    formatCSVData (VObj [("csv_data", VStr (serialize table))])
    <> Some table.
Proof.
  intros table Hq.
  assert (H : forall extractionResults,
             formatCSVData extractionResults <> Some table).
  { intros r Hr. apply formatCSV_cells_plain in Hr.
    apply Exists_exists in Hq. destruct Hq as (row & Hrow & Hcell).
    apply Exists_exists in Hcell. destruct Hcell as (cell & Hin & Hcell).
    rewrite Forall_forall in Hr. specialize (Hr row Hrow).
    rewrite Forall_forall in Hr. specialize (Hr cell Hin).
    unfold plain in Hr. congruence. }
  split; [exact H|apply H].
Qed.

Lemma formatCSVData_never_recovers_quoted_cell_witness :
  formatCSVData (VObj [("csv_data", VStr (serialize rent_table))])
  = Some [ ["Item"; "Amount"]; ["Rent"; "1"; "000"] ] /\
  formatCSVData (VObj [("csv_data", VStr (serialize rent_table))])
  <> Some rent_table /\
  formatCSVData (VObj [("csv_data", VStr (serialize [["Size"]; [inches]]))])
  = Some [ ["Size"]; ["5"] ] /\
  formatCSVData
    (VObj [("csv_data", VStr (serialize [["Address"]; [two_lines]]))])
  = Some [ ["Address"]; ["Main St"]; ["Springfield"] ].
Proof.
  split; [reflexivity|]. split.
  - apply (formatCSVData_never_recovers_quoted_cell rent_table).
    right. left. right. left. reflexivity.
  - split; reflexivity.
Defined.

(** ** Accuracy *)

Lemma clamp01_bounds q : 0 <= clamp01 q /\ clamp01 q <= 1.
Proof.
  unfold clamp01. split.
  - apply Q.le_max_l.
  - apply Q.max_lub; [discriminate|apply Q.le_min_l].
Qed.

Lemma clamp01_monotone p q : p <= q -> clamp01 p <= clamp01 q.
Proof.
  intros H. unfold clamp01.
  apply Q.max_le_compat_l. now apply Q.min_le_compat_l.
Qed.

Lemma clamp01_cases q :
  (q < 0 -> clamp01 q == 0) /\
  (0 <= q <= 1 -> clamp01 q == q) /\
  (1 < q -> clamp01 q == 1).
Proof.
  unfold clamp01. repeat split.
  - intros H. rewrite Q.max_l; [reflexivity|].
    apply Qle_trans with q; [apply Q.le_min_r|now apply Qlt_le_weak].
  - intros [H0 H1]. rewrite (Q.min_r 1 q) by assumption.
    now apply Q.max_r.
  - intros H. rewrite (Q.min_l 1 q) by now apply Qlt_le_weak.
    now apply Q.max_r.
Qed.

Lemma count_nonneg n : 0 <= count n.
Proof.
  unfold count. change 0 with (inject_Z 0).
  rewrite <- Zle_Qle. lia.
Qed.

Lemma count_monotone n m : (n <= m)%nat -> count n <= count m.
Proof. intros H. unfold count. rewrite <- Zle_Qle. lia. Qed.

Lemma count_positive n : (0 < n)%nat -> 0 < count n.
Proof.
  intros H. unfold count. change 0 with (inject_Z 0).
  rewrite <- Zlt_Qlt. lia.
Qed.

Lemma count_S n : count (S n) == count n + 1.
Proof.
  unfold count. rewrite Nat2Z.inj_succ. unfold Z.succ.
  now rewrite inject_Z_plus.
Qed.

Lemma clamp01_nonpos q : q <= 0 -> clamp01 q == 0.
Proof.
  intros H. unfold clamp01. rewrite Q.max_l; [reflexivity|].
  apply Qle_trans with q; [apply Q.le_min_r|exact H].
Qed.

Lemma clamp01_strict p q :
  p < q -> q <= 1 -> 0 < clamp01 q -> clamp01 p < clamp01 q.
Proof.
  intros Hpq Hq Hpos.
  destruct (Qlt_le_dec 0 q) as [H0|H0].
  - destruct (clamp01_cases q) as (_ & Eq & _).
    rewrite Eq by (split; [now apply Qlt_le_weak|exact Hq]).
    destruct (Qlt_le_dec 0 p) as [Hp|Hp].
    + destruct (clamp01_cases p) as (_ & Ep & _).
      rewrite Ep; [exact Hpq|].
      split; [now apply Qlt_le_weak|].
      apply Qle_trans with q; [now apply Qlt_le_weak|exact Hq].
    + now rewrite (clamp01_nonpos p Hp).
  - rewrite (clamp01_nonpos q H0) in Hpos. discriminate Hpos.
Qed.

Lemma weighted_nonneg w_error w_warning tables :
  0 <= w_error -> 0 <= w_warning -> 0 <= weighted w_error w_warning tables.
Proof.
  intros He Hw. unfold weighted.
  replace 0 with (0 + 0) by reflexivity.
  apply Qplus_le_compat; apply Qmult_le_0_compat;
    assumption || apply count_nonneg.
Qed.

Lemma weighted_monotone w_error w_warning p q :
  0 <= w_error -> 0 <= w_warning ->
  (validation_errors p <= validation_errors q)%nat ->
  (validation_warnings p <= validation_warnings q)%nat ->
  weighted w_error w_warning p <= weighted w_error w_warning q.
Proof.
  intros He Hw Hes Hws. unfold weighted.
  apply Qplus_le_compat.
  - rewrite !(Qmult_comm w_error).
    apply Qmult_le_compat_r; [now apply count_monotone|assumption].
  - rewrite !(Qmult_comm w_warning).
    apply Qmult_le_compat_r; [now apply count_monotone|assumption].
Qed.

(** The rate of a page with cells is the clamped formula. *)
Lemma accuracy_rate_with_cells w_error w_warning no_cells tables :
  (0 < total_cells tables)%nat ->
  accuracy_rate w_error w_warning no_cells tables
  = clamp01 (1 - weighted w_error w_warning tables
                 / count (total_cells tables)).
Proof.
  intros H. unfold accuracy_rate, accuracy, weighted_count, weighted.
  cbv zeta.
  destruct (Nat.eqb_spec (total_cells tables) 0) as [E|_]; [lia|reflexivity].
Qed.

Lemma quotient_antitone a b n :
  0 < n -> a <= b -> 1 - b / n <= 1 - a / n.
Proof.
  intros Hn Hab. apply Qplus_le_r. apply Qopp_le_compat.
  unfold Qdiv. apply Qmult_le_compat_r; [exact Hab|].
  apply Qinv_le_0_compat. now apply Qlt_le_weak.
Qed.

Lemma quotient_strict a b n :
  0 < n -> a < b -> 1 - b / n < 1 - a / n.
Proof.
  intros Hn Hab. apply Qplus_lt_r. apply Qopp_lt_compat.
  unfold Qdiv. apply Qmult_lt_compat_r; [|exact Hab].
  now apply Qinv_lt_0_compat.
Qed.

(** C5. With an error weighted above a warning and no weight negative:
    the accuracy rate of every result lies between 0 and 1. For a result
    with at least one cell it is [1 - weighted_error_and_warning_count /
    total_cells] where the weighted count is at most the cells, and 0
    where it is more. Between two results of the same number of cells,
    the one with the greater weighted count has no greater rate; so the
    rate does not increase when the errors increase and the warnings do
    not decrease; and turning one warning into an error lowers a rate
    that is above 0. A clean page of three rows and three columns has
    rate 1. *)
Theorem accuracy_rate_clamped_antitone :
  forall (w_error w_warning : Q) (no_cells : Q -> Q),
    0 <= w_warning -> w_warning < w_error ->
    let rate := accuracy_rate w_error w_warning no_cells in
    (forall tables, 0 <= rate tables /\ rate tables <= 1) /\
    (forall tables,
        (0 < total_cells tables)%nat ->
        (weighted w_error w_warning tables <= count (total_cells tables) ->
         rate tables * count (total_cells tables)
         == count (total_cells tables) - weighted w_error w_warning tables) /\
        (count (total_cells tables) <= weighted w_error w_warning tables ->
         rate tables == 0)) /\
    (forall p q,
        total_cells p = total_cells q ->
        (0 < total_cells p)%nat ->
        (weighted w_error w_warning p <= weighted w_error w_warning q ->
         rate q <= rate p) /\
        ((validation_errors p <= validation_errors q)%nat ->
         (validation_warnings p <= validation_warnings q)%nat ->
         rate q <= rate p) /\
        (validation_errors q = S (validation_errors p) ->
         validation_warnings p = S (validation_warnings q) ->
         0 < rate p ->
         rate q < rate p)) /\
    rate clean_page == 1.
Proof.
  intros w_error w_warning no_cells Hw Hlt rate.
  assert (He : 0 <= w_error)
    by (apply Qlt_le_weak; now apply Qle_lt_trans with w_warning).
  split; [|split; [|split]].
  - intros tables. apply clamp01_bounds.
  - intros tables Hcells. subst rate. cbv beta.
    rewrite (accuracy_rate_with_cells _ _ _ _ Hcells).
    pose proof (count_positive _ Hcells) as Hn.
    pose proof (weighted_nonneg w_error w_warning tables He Hw) as H0.
    set (W := weighted w_error w_warning tables) in *.
    set (N := count (total_cells tables)) in *.
    split.
    + intros HW.
      destruct (clamp01_cases (1 - W / N)) as (_ & E & _).
      rewrite E.
      * field. intros HN. rewrite HN in Hn. discriminate Hn.
      * split.
        -- apply (Qle_trans _ (1 - N / N)).
           ++ setoid_replace (N / N) with 1; [discriminate|].
              field. intros HN. rewrite HN in Hn. discriminate Hn.
           ++ now apply quotient_antitone.
        -- apply (Qle_trans _ (1 - 0 / N)).
           ++ now apply quotient_antitone.
           ++ setoid_replace (0 / N) with 0; [discriminate|].
              field. intros HN. rewrite HN in Hn. discriminate Hn.
    + intros HW. apply clamp01_nonpos.
      apply (Qle_trans _ (1 - N / N)).
      * now apply quotient_antitone.
      * setoid_replace (N / N) with 1; [discriminate|].
        field. intros HN. rewrite HN in Hn. discriminate Hn.
  - intros p q Hsame Hcells. subst rate. cbv beta.
    assert (Hcells' : (0 < total_cells q)%nat) by lia.
    rewrite (accuracy_rate_with_cells _ _ _ p Hcells).
    rewrite (accuracy_rate_with_cells _ _ _ q Hcells').
    rewrite <- Hsame.
    pose proof (count_positive _ Hcells) as Hn.
    split; [|split].
    + intros HW. apply clamp01_monotone. now apply quotient_antitone.
    + intros Hes Hws. apply clamp01_monotone. apply quotient_antitone;
        [exact Hn|now apply weighted_monotone].
    + intros Hes Hws Hpos.
      apply clamp01_strict; [|
        apply (Qle_trans _ (1 - 0 / count (total_cells p)));
        [apply quotient_antitone;
         [exact Hn|now apply weighted_nonneg]
        |setoid_replace (0 / count (total_cells p)) with 0;
         [discriminate|]; field; intros HN; rewrite HN in Hn;
         discriminate Hn]|exact Hpos].
      apply quotient_strict; [exact Hn|].
      unfold weighted. rewrite Hes, Hws, !count_S.
      apply Qplus_lt_l with
        (z := - (w_error * count (validation_errors p))
              - w_warning * count (validation_warnings q)).
      ring_simplify. exact Hlt.
  - subst rate. cbv beta.
    rewrite accuracy_rate_with_cells by (vm_compute; lia).
    destruct (clamp01_cases
                (1 - weighted w_error w_warning clean_page
                     / count (total_cells clean_page)))
      as (_ & E & _).
    assert (Hraw : 1 - weighted w_error w_warning clean_page
                       / count (total_cells clean_page) == 1).
    { unfold weighted.
      change (count (validation_errors clean_page)) with 0.
      change (count (validation_warnings clean_page)) with 0.
      change (count (total_cells clean_page)) with 9.
      field. }
    rewrite E; [exact Hraw|]. rewrite Hraw. split; discriminate.
Qed.

Lemma accuracy_rate_clamped_antitone_witness :
  accuracy_rate 1 (1 # 5) (fun _ => 0) broken_page
  <= accuracy_rate 1 (1 # 5) (fun _ => 0) clean_page.
Proof.
  destruct (accuracy_rate_clamped_antitone 1 (1 # 5) (fun _ => 0)
              ltac:(discriminate) ltac:(reflexivity))
    as (Hbounds & _ & _ & Hclean).
  rewrite Hclean. apply Hbounds.
Defined.

(** C5, as stated, fails: for a fixed number of cells the rate can go up
    when the errors go up. With the weights 1 and 0.2, a table of ten
    cells with a warning on each has no error and rate 0.8; the same
    table without a warning, next to a table without rows, has one error
    and rate 0.9. *)
Lemma accuracy_rate_errors_counterexample :
  total_cells doubtful_page = total_cells broken_page /\
  (validation_errors doubtful_page < validation_errors broken_page)%nat /\
  accuracy_rate 1 (1 # 5) (fun _ => 0) doubtful_page == 4 # 5 /\
  accuracy_rate 1 (1 # 5) (fun _ => 0) broken_page == 9 # 10 /\
  ~ (accuracy_rate 1 (1 # 5) (fun _ => 0) broken_page
     <= accuracy_rate 1 (1 # 5) (fun _ => 0) doubtful_page).
Proof.
  split; [reflexivity|]. split; [vm_compute; lia|].
  split; [vm_compute; reflexivity|]. split; [vm_compute; reflexivity|].
  intros H. vm_compute in H. apply H. reflexivity.
Qed.

(** ** Totals of a page *)

Lemma length_cells t : List.length (cells t) = (rows t * cols t)%nat.
Proof. unfold cells. now rewrite length_prod, !length_seq. Qed.

Lemma degenerate_no_cell t : degenerate t = true -> cells t = [].
Proof.
  intros H. apply length_zero_iff_nil. rewrite length_cells.
  unfold degenerate in H. apply orb_prop in H.
  destruct H as [H|H]; apply Nat.eqb_eq in H; rewrite H; lia.
Qed.

Lemma length_flat_map {A B} (f : A -> list B) xs :
  List.length (flat_map f xs)
  = list_sum (map (fun x => List.length (f x)) xs).
Proof.
  induction xs as [|x xs IH]; simpl; [reflexivity|].
  now rewrite length_app, IH.
Qed.

Lemma length_errors t :
  List.length (errors t)
  = ((if degenerate t then 1 else 0) + List.length (pass_errors t))%nat.
Proof.
  unfold errors, structural_errors, degenerate. rewrite length_app.
  destruct ((rows t =? 0)%nat || (cols t =? 0)%nat); reflexivity.
Qed.

Lemma validation_errors_split tables :
  validation_errors tables
  = (List.length (filter degenerate tables)
     + List.length (flat_map pass_errors tables))%nat.
Proof.
  unfold validation_errors.
  induction tables as [|t tables IH]; simpl; [reflexivity|].
  rewrite !length_app, IH, length_errors.
  destruct (degenerate t); simpl; lia.
Qed.

(** C6, as the specification's own rules give it. The cells of a page
    number the sum over its tables of rows by columns, so a table without
    rows or without columns adds none. The validation errors are one
    structural error for each such table and the errors the passes
    found; so they are at least the number of such tables, and on a page
    that has tables and only such tables they exceed the cells, which
    are none. They are at most the cells when no table has more errors
    than cells, and none on a page whose tables all have rows and columns
    and no error of a pass. *)
Theorem page_totals :
  forall tables,
    total_cells tables
    = list_sum (map (fun t => (rows t * cols t)%nat) tables) /\
    total_cells tables
    = total_cells (filter (fun t => negb (degenerate t)) tables) /\
    validation_errors tables
    = (List.length (filter degenerate tables)
       + List.length (flat_map pass_errors tables))%nat /\
    (tables <> [] ->
     Forall (fun t => degenerate t = true) tables ->
     total_cells tables = 0%nat /\
     (total_cells tables < validation_errors tables)%nat) /\
    (Forall (fun t => (List.length (errors t) <= rows t * cols t)%nat) tables ->
     (validation_errors tables <= total_cells tables)%nat) /\
    (Forall (fun t => degenerate t = false /\ pass_errors t = []) tables ->
     validation_errors tables = 0%nat).
Proof.
  intros tables.
  assert (Hsum : total_cells tables
                 = list_sum (map (fun t => (rows t * cols t)%nat) tables)).
  { unfold total_cells. rewrite length_flat_map.
    f_equal. apply map_ext. intros t. apply length_cells. }
  split; [exact Hsum|]. split.
  { unfold total_cells. clear Hsum.
    induction tables as [|t tables IH]; simpl; [reflexivity|].
    destruct (degenerate t) eqn:E; simpl.
    - now rewrite (degenerate_no_cell t E).
    - now rewrite !length_app, IH. }
  split; [apply validation_errors_split|]. split; [|split].
  - intros Hne Hall.
    assert (Hcells : total_cells tables = 0%nat).
    { unfold total_cells. clear Hsum Hne.
      induction Hall as [|t tables Ht _ IH]; simpl; [reflexivity|].
      now rewrite (degenerate_no_cell t Ht). }
    split; [exact Hcells|]. rewrite Hcells, validation_errors_split.
    destruct Hall as [|t tables Ht _]; [contradiction|].
    simpl. rewrite Ht. simpl. lia.
  - intros Hall. rewrite Hsum. unfold validation_errors.
    rewrite length_flat_map. clear Hsum.
    induction Hall as [|t tables Ht _ IH]; simpl; [lia|].
    lia.
  - intros Hall. rewrite validation_errors_split. clear Hsum.
    induction Hall as [|t tables [Ht Hp] _ IH]; simpl; [reflexivity|].
    rewrite Ht, Hp. simpl. exact IH.
Qed.

Lemma page_totals_witness :
  total_cells clean_page = 9%nat /\
  validation_errors clean_page = 0%nat /\
  (validation_errors clean_page <= total_cells clean_page)%nat.
Proof.
  destruct (page_totals clean_page) as (Hsum & _ & _ & _ & Hle & Hclean).
  split; [exact Hsum|]. split.
  - apply Hclean. repeat constructor.
  - apply Hle. repeat constructor.
Defined.

(** C6, as stated, fails on the specification's own rules: a table
    without rows has no cell and always produces a structural error,
    which increments the validation errors. *)
Lemma page_totals_counterexample :
  total_cells rowless_page = 0%nat /\
  In "StructuralError" (flat_map errors rowless_page) /\
  validation_errors rowless_page = 1%nat /\
  ~ (validation_errors rowless_page <= total_cells rowless_page)%nat.
Proof.
  split; [reflexivity|]. split; [simpl; tauto|]. split; [reflexivity|].
  change (~ (1 <= 0)%nat). lia.
Qed.

(** ** Consensus *)

Lemma Qltb_lt a b : a < b -> Qltb a b = true.
Proof.
  intros H. unfold Qltb.
  destruct (Qle_bool b a) eqn:E; [|reflexivity].
  apply Qle_bool_iff in E. exfalso. now apply (Qlt_not_le a b).
Qed.

Lemma Qltb_true a b : Qltb a b = true -> a < b.
Proof.
  unfold Qltb. intros H. apply Qnot_le_lt. intros Hle.
  apply Qle_bool_iff in Hle. rewrite Hle in H. discriminate H.
Qed.

Lemma Qltb_false a b : Qltb a b = false -> b <= a.
Proof.
  unfold Qltb. intros H. apply Qle_bool_iff.
  destruct (Qle_bool b a); [reflexivity|discriminate H].
Qed.

(** The fold of [most_confident] ends on a token of the cluster that no
    token of the cluster exceeds. *)
Lemma fold_most_confident rest :
  forall s,
    let best :=
      fold_left
        (fun l t => if Qltb (confidence l) (confidence t) then t else l)
        rest s in
    In best (s :: rest) /\
    forall t, In t (s :: rest) -> confidence t <= confidence best.
Proof.
  induction rest as [|t rest IH]; intros s; cbv zeta.
  - simpl. split; [now left|]. intros t [<-|[]]. apply Qle_refl.
  - simpl fold_left.
    destruct (IH (if Qltb (confidence s) (confidence t) then t else s))
      as [Hin Hmax].
    destruct (Qltb (confidence s) (confidence t)) eqn:E.
    + split.
      * destruct Hin as [<-|Hin]; [right; now left|right; now right].
      * intros x [<-|[<-|Hx]].
        -- apply Qle_trans with (confidence t).
           ++ apply Qlt_le_weak. now apply Qltb_true.
           ++ apply Hmax. now left.
        -- apply Hmax. now left.
        -- apply Hmax. now right.
    + split.
      * destruct Hin as [<-|Hin]; [now left|right; now right].
      * intros x [<-|[<-|Hx]].
        -- apply Hmax. now left.
        -- apply Qle_trans with (confidence s).
           ++ now apply Qltb_false.
           ++ apply Hmax. now left.
        -- apply Hmax. now right.
Qed.

Lemma max_confidence_attained c :
  c <> [] ->
  exists best,
    In best c /\
    max_confidence c = confidence best /\
    forall t, In t c -> confidence t <= confidence best.
Proof.
  destruct c as [|s rest]; [congruence|]. intros _.
  destruct (fold_most_confident rest s) as [Hin Hmax].
  eexists. split; [exact Hin|]. split; [reflexivity|exact Hmax].
Qed.

Lemma max_confidence_ge c t :
  In t c -> confidence t <= max_confidence c.
Proof.
  intros Ht.
  destruct (max_confidence_attained c) as (best & _ & -> & Hmax);
    [intros ->; contradiction|].
  now apply Hmax.
Qed.

Lemma fold_winner_in c (beat : OcrToken -> OcrToken -> bool) rest s :
  In s c -> incl rest c ->
  In (fold_left (fun l t => if beat t l then t else l) rest s) c.
Proof.
  revert s. induction rest as [|t rest IH]; simpl; intros s Hs Hincl.
  - exact Hs.
  - apply IH.
    + destruct (beat t s); [apply Hincl; now left|exact Hs].
    + intros x Hx. apply Hincl. now right.
Qed.

Lemma winner_in reliability c w :
  winner reliability c = Some w -> In w c.
Proof.
  destruct c as [|s rest]; simpl; [discriminate|].
  intros H. injection H as <-.
  apply (fold_winner_in (s :: rest) (beats reliability (s :: rest))).
  - now left.
  - intros x Hx. now right.
Qed.

Lemma insert_spatial_perm t ts : Permutation (t :: ts) (insert_spatial t ts).
Proof.
  induction ts as [|s ts IH]; simpl; [reflexivity|].
  destruct (before t s); [reflexivity|].
  rewrite perm_swap. now constructor.
Qed.

Lemma spatial_order_perm ts : Permutation ts (spatial_order ts).
Proof.
  unfold spatial_order.
  induction ts as [|t ts IH]; simpl; [reflexivity|].
  rewrite <- insert_spatial_perm. now constructor.
Qed.

(** The cluster [nearest] picks is one of the list, and its seed
    overlaps the token beyond the threshold. *)
Lemma nearest_spec t cs :
  forall i best j,
    nearest t cs i best = Some j ->
    (exists o, best = Some (j, o)) \/
    (exists c, nth_error cs (j - i) = Some c /\
               (i <= j)%nat /\ iou_threshold < seed_iou t c).
Proof.
  induction cs as [|c cs IH]; intros i best j H; simpl in H.
  - destruct best as [[j' o]|]; [|discriminate].
    injection H as <-. left. now exists o.
  - apply IH in H. destruct H as [(o & H)|(c' & Hnth & Hle & Hiou)].
    + destruct (Qltb iou_threshold (seed_iou t c)) eqn:E; simpl in H.
      * destruct (match best with
                  | Some (_, b) => Qltb b (seed_iou t c)
                  | None => true
                  end).
        -- injection H as <- <-. right. exists c.
           rewrite Nat.sub_diag. split; [reflexivity|].
           split; [lia|now apply Qltb_true].
        -- left. now exists o.
      * left. now exists o.
    + right. exists c'.
      replace (j - i)%nat with (S (j - S i)) by lia.
      split; [exact Hnth|]. split; [lia|exact Hiou].
Qed.

Lemma add_to_sound t cs :
  forall j c,
    nth_error cs j = Some c ->
    iou_threshold < seed_iou t c ->
    Forall sound_cluster cs ->
    Forall sound_cluster (add_to j t cs).
Proof.
  induction cs as [|c0 cs IH]; intros j c Hnth Hiou Hall;
    [destruct j; discriminate Hnth|].
  inversion Hall as [|? ? Hc0 Hcs]; subst.
  destruct j as [|j]; simpl in *.
  - injection Hnth as ->. constructor; [|exact Hcs].
    destruct Hc0 as (seed & members & -> & Hmembers).
    exists seed, (members ++ [t]). split; [reflexivity|].
    intros x Hx. apply in_app_or in Hx.
    destruct Hx as [Hx|[<-|[]]]; [now apply Hmembers|exact Hiou].
  - constructor; [exact Hc0|]. now apply (IH j c).
Qed.

Lemma add_to_perm t cs :
  forall j c,
    nth_error cs j = Some c ->
    Permutation (List.concat (add_to j t cs)) (t :: List.concat cs).
Proof.
  induction cs as [|c0 cs IH]; intros j c Hnth;
    [destruct j; discriminate|].
  destruct j as [|j]; simpl in *.
  - rewrite <- app_assoc. simpl. apply Permutation_sym, Permutation_middle.
  - rewrite (IH j c Hnth). apply Permutation_sym, Permutation_middle.
Qed.

Lemma merge_spec cs t :
  Forall sound_cluster cs ->
  Forall sound_cluster (merge cs t) /\
  Permutation (List.concat (merge cs t)) (t :: List.concat cs).
Proof.
  intros Hall. unfold merge.
  destruct (nearest t cs 0 None) as [j|] eqn:E.
  - apply nearest_spec in E.
    destruct E as [(o & E)|(c & Hnth & _ & Hiou)]; [discriminate|].
    rewrite Nat.sub_0_r in Hnth. split.
    + now apply (add_to_sound t cs j c).
    + now apply (add_to_perm t cs j c).
  - split.
    + apply Forall_app. split; [exact Hall|].
      constructor; [|constructor].
      exists t, []. split; [reflexivity|]. intros x [].
    + rewrite concat_app. simpl.
      apply Permutation_sym, Permutation_cons_append.
Qed.

Lemma fold_merge_spec ts :
  forall cs,
    Forall sound_cluster cs ->
    Forall sound_cluster (fold_left merge ts cs) /\
    Permutation (List.concat (fold_left merge ts cs)) (ts ++ List.concat cs).
Proof.
  induction ts as [|t ts IH]; intros cs Hall; simpl.
  - split; [exact Hall|reflexivity].
  - destruct (merge_spec cs t Hall) as [Hsound Hperm].
    destruct (IH (merge cs t) Hsound) as [Hsound' Hperm'].
    split; [exact Hsound'|].
    rewrite Hperm', Hperm. apply Permutation_sym, Permutation_middle.
Qed.

(** Clustering splits the tokens into sound clusters. *)
Lemma clusters_spec tokens :
  Forall sound_cluster (clusters tokens) /\
  Permutation (List.concat (clusters tokens)) tokens.
Proof.
  unfold clusters.
  destruct (fold_merge_spec (spatial_order tokens) [] (Forall_nil _))
    as [Hsound Hperm].
  split; [exact Hsound|].
  rewrite Hperm. simpl. rewrite app_nil_r.
  apply Permutation_sym, spatial_order_perm.
Qed.

(** Tokens that all overlap the seed of the only cluster join it, in
    order. *)
Lemma merge_all_into_seed s c rest :
  (forall t, In t rest -> iou_threshold < iou (bbox s) (bbox t)) ->
  fold_left merge rest [s :: c] = [s :: c ++ rest].
Proof.
  revert c. induction rest as [|t rest IH]; intros c H; simpl.
  - now rewrite app_nil_r.
  - unfold merge at 2. simpl.
    rewrite (Qltb_lt _ _ (H t (or_introl eq_refl))). simpl.
    rewrite IH by (intros t' Ht'; apply H; now right).
    now rewrite <- app_assoc.
Qed.

(** Nearly identical boxes make one cluster, the tokens in spatial
    order. *)
Lemma clusters_near_identical tokens :
  tokens <> [] ->
  near_identical (map bbox tokens) ->
  clusters tokens = [spatial_order tokens].
Proof.
  intros Hne Hnear. unfold clusters.
  pose proof (spatial_order_perm tokens) as Hperm.
  destruct (spatial_order tokens) as [|s rest] eqn:E.
  - apply Permutation_sym, Permutation_nil in Hperm. contradiction.
  - simpl. unfold merge at 2. simpl.
    rewrite (merge_all_into_seed s [] rest); [reflexivity|].
    intros t Ht. apply Hnear; apply in_map;
      apply (Permutation_in _ (Permutation_sym Hperm)).
    + now left.
    + now right.
Qed.

Lemma engines_of_distinct c :
  NoDup (map engine_id c) -> List.length (engines c) = List.length c.
Proof.
  intros H. unfold engines.
  rewrite nodup_fixed_point by assumption. apply length_map.
Qed.

Lemma engines_spec c :
  NoDup (engines c) /\
  forall e, In e (engines c) <-> exists t, In t c /\ engine_id t = e.
Proof.
  unfold engines. split; [apply NoDup_nodup|].
  intros e. rewrite nodup_In, in_map_iff. split.
  - intros (t & <- & Ht). now exists t.
  - intros (t & Ht & <-). now exists t.
Qed.

Lemma agreement_positive c : c <> [] -> (0 < List.length (engines c))%nat.
Proof.
  destruct c as [|s rest]; [congruence|]. intros _.
  destruct (engines_spec (s :: rest)) as [_ H].
  assert (Hin : In (engine_id s) (engines (s :: rest)))
    by (apply H; exists s; split; [now left|reflexivity]).
  destruct (engines (s :: rest)); [contradiction|simpl; lia].
Qed.

Lemma agreement_bonus_positive bonus total_engines_run c :
  0 < bonus -> (0 < total_engines_run)%nat -> c <> [] ->
  0 < agreement_bonus bonus total_engines_run c.
Proof.
  intros Hbonus Htotal Hc. unfold agreement_bonus.
  apply Qmult_lt_0_compat; [exact Hbonus|].
  apply Qlt_shift_div_l.
  - now apply count_positive.
  - rewrite Qmult_0_l. apply count_positive. now apply agreement_positive.
Qed.

Lemma agreement_bonus_nonneg bonus total_engines_run c :
  0 <= bonus -> 0 <= agreement_bonus bonus total_engines_run c.
Proof.
  intros Hbonus. unfold agreement_bonus.
  apply Qmult_le_0_compat; [exact Hbonus|].
  unfold Qdiv. apply Qmult_le_0_compat; [apply count_nonneg|].
  apply Qinv_le_0_compat, count_nonneg.
Qed.

(** C7. Let a bonus never lower a confidence and, when both are above 0,
    raise it, and let the bonus factor be above 0. Clustering splits the
    tokens into clusters, each with a seed that every other member
    overlaps beyond the threshold. The agreement count of a cluster is
    the number of its distinct engines. Its consensus confidence is the
    confidence of a member that no member exceeds, boosted by the bonus
    factor times [agreement_count / total_engines_run] and capped at
    one: it never exceeds one, is not below the greatest confidence when
    that is at most one, and is above it when that lies strictly between
    0 and 1 and an engine ran. When three engines read Total at nearly
    identical boxes with confidences 0.9, 0.85 and 0.4, the consensus is
    one token, with text Total, confidence above 0.9 and agreement count
    3. *)
Theorem consensus_confidence_boosted :
  forall (reliability : nat -> Q) (boost : Q -> Q -> Q) (bonus : Q),
    0 < bonus ->
    (forall m b, 0 <= b -> m <= boost m b) ->
    (forall m b, 0 < m -> 0 < b -> m < boost m b) ->
    (forall tokens, Permutation (List.concat (clusters tokens)) tokens) /\
    (forall tokens total_engines_run c,
        In c (clusters tokens) ->
        let conf := consensus_confidence bonus total_engines_run boost c in
        sound_cluster c /\
        NoDup (engines c) /\
        (forall e,
            In e (engines c) <-> exists t, In t c /\ engine_id t = e) /\
        (exists best,
            In best c /\
            (forall t, In t c -> confidence t <= confidence best) /\
            conf = Qmin 1
                     (boost (confidence best)
                        (bonus * (count (List.length (engines c))
                                  / count total_engines_run))) /\
            (confidence best <= 1 -> confidence best <= conf) /\
            (0 < confidence best -> confidence best < 1 ->
             (0 < total_engines_run)%nat ->
             confidence best < conf)) /\
        conf <= 1 /\
        exists token,
          consensus_of reliability bonus total_engines_run boost c
          = Some token /\
          c_confidence token = conf /\
          agreement_count token = List.length (engines c) /\
          contributing_engines token = engines c /\
          (exists t, In t c /\ c_text token = text t)) /\
    (forall b1 b2 b3 e1 e2 e3,
        near_identical [b1; b2; b3] ->
        NoDup [e1; e2; e3] ->
        exists token,
          consensus reliability bonus 3 boost
            (readings_of_total b1 b2 b3 e1 e2 e3)
          = [token] /\
          c_text token = "Total" /\
          9 # 10 < c_confidence token /\
          agreement_count token = 3%nat).
Proof.
  intros reliability boost bonus Hbonus Hboost Hstrict.
  split; [intros tokens; apply clusters_spec|]. split.
  - intros tokens n c Hc conf.
    destruct (clusters_spec tokens) as [Hsound _].
    rewrite Forall_forall in Hsound. specialize (Hsound c Hc).
    assert (Hne : c <> [])
      by (destruct Hsound as (seed & members & -> & _); discriminate).
    destruct (engines_spec c) as [Hnodup Hengines].
    split; [exact Hsound|]. split; [exact Hnodup|].
    split; [exact Hengines|].
    destruct (max_confidence_attained c Hne) as (best & Hin & Emax & Hmax).
    assert (Econf : conf
                    = Qmin 1 (boost (confidence best)
                                (agreement_bonus bonus n c)))
      by (subst conf; unfold consensus_confidence; now rewrite Emax).
    split; [|split].
    + exists best. split; [exact Hin|]. split; [exact Hmax|].
      split; [exact Econf|]. rewrite Econf. split.
      * intros Hle. apply Q.min_glb; [exact Hle|].
        apply Hboost. apply agreement_bonus_nonneg.
        now apply Qlt_le_weak.
      * intros Hpos Hlt Hn. apply Q.min_glb_lt; [exact Hlt|].
        apply Hstrict; [exact Hpos|].
        now apply agreement_bonus_positive.
    + rewrite Econf. apply Q.le_min_l.
    + destruct (winner reliability c) as [w|] eqn:Hw.
      2:{ destruct c; [congruence|discriminate Hw]. }
      destruct c as [|s rest] eqn:Ec; [congruence|]. rewrite <- Ec in *.
      eexists. split.
      { unfold consensus_of. rewrite Hw, Ec. reflexivity. }
      cbn [c_text c_confidence agreement_count contributing_engines].
      split; [subst conf; now rewrite Ec|].
      split; [reflexivity|]. split; [reflexivity|].
      exists w. split; [now apply (winner_in reliability)|reflexivity].
  - intros b1 b2 b3 e1 e2 e3 Hnear Hengines.
    set (tokens := readings_of_total b1 b2 b3 e1 e2 e3).
    pose proof (spatial_order_perm tokens) as Hperm.
    unfold consensus.
    rewrite clusters_near_identical by (discriminate || exact Hnear).
    set (c := spatial_order tokens) in *.
    assert (Hagree : List.length (engines c) = 3%nat).
    { rewrite engines_of_distinct.
      - now rewrite <- (Permutation_length Hperm).
      - apply (Permutation_NoDup (Permutation_map engine_id Hperm)).
        exact Hengines. }
    destruct (winner reliability c) as [w|] eqn:Hw.
    2:{ destruct c; [apply Permutation_sym, Permutation_nil in Hperm|];
        discriminate. }
    destruct c as [|s rest] eqn:Ec; [discriminate Hw|]. rewrite <- Ec in *.
    assert (Htext : text w = "Total").
    { apply winner_in in Hw.
      apply (Permutation_in _ (Permutation_sym Hperm)) in Hw.
      destruct Hw as [<-|[<-|[<-|[]]]]; reflexivity. }
    eexists. split.
    { cbn [map somes]. unfold consensus_of. rewrite Hw, Ec. reflexivity. }
    cbn [c_text c_confidence agreement_count]. rewrite <- Ec.
    split; [exact Htext|]. split; [|exact Hagree].
    assert (Hmax : 9 # 10 <= max_confidence c).
    { apply (max_confidence_ge c (mkToken "Total" b1 (9 # 10) e1)).
      apply (Permutation_in _ Hperm). now left. }
    unfold consensus_confidence.
    apply Q.min_glb_lt; [reflexivity|].
    apply Qle_lt_trans with (max_confidence c); [exact Hmax|].
    apply Hstrict.
    + apply Qlt_le_trans with (9 # 10); [reflexivity|exact Hmax].
    + apply agreement_bonus_positive; [exact Hbonus|lia|].
      rewrite Ec. discriminate.
Qed.

Lemma consensus_confidence_boosted_witness :
  exists token,
    consensus (fun _ => 1) (1 # 10) 3 additive
      (readings_of_total box1 box2 box3 1 2 3) = [token] /\
    c_text token = "Total" /\
    9 # 10 < c_confidence token /\
    agreement_count token = 3%nat.
Proof.
  apply (consensus_confidence_boosted (fun _ => 1) additive (1 # 10)).
  - reflexivity.
  - intros m b Hb. unfold additive.
    rewrite <- (Qplus_0_r m) at 1. now apply Qplus_le_r.
  - intros m b _ Hb. unfold additive.
    rewrite <- (Qplus_0_r m) at 1. now apply Qplus_lt_r.
  - intros p q Hp Hq. simpl in Hp, Hq.
    destruct Hp as [<-|[<-|[<-|[]]]]; destruct Hq as [<-|[<-|[<-|[]]]];
      reflexivity.
  - repeat constructor; simpl; intuition discriminate.
Defined.

(** ** Reachable states of the reducer *)

Lemma obj_keys_replace k v o : obj_keys (obj_replace k v o) = obj_keys o \/ obj_has k o = false.
Proof.
  unfold obj_has.
  induction o as [|[k1 v1] o IH]; simpl; [now left|].
  destruct (String.eqb_spec k k1) as [->|Hne]; simpl; [now left|].
  destruct IH as [IH|IH]; [left; now rewrite IH|now right].
Qed.

Lemma obj_keys_set_present k v o :
  obj_has k o = true -> obj_keys (obj_set k v o) = obj_keys o.
Proof.
  intros H. unfold obj_set. rewrite H.
  destruct (obj_keys_replace k v o) as [E|E]; [exact E|congruence].
Qed.

Lemma obj_has_key k o : In k (obj_keys o) -> obj_has k o = true.
Proof.
  unfold obj_has.
  induction o as [|[k1 v1] o IH]; simpl; [tauto|].
  intros [->|H].
  - now rewrite String.eqb_refl.
  - destruct (String.eqb k k1); [reflexivity|now apply IH].
Qed.

Lemma obj_get_none_key k o : obj_get k o = None -> ~ In k (obj_keys o).
Proof.
  intros H Hin. apply obj_has_key in Hin. unfold obj_has in Hin.
  now rewrite H in Hin.
Qed.

Lemma obj_get_key k o v : obj_get k o = Some v -> In k (obj_keys o).
Proof.
  induction o as [|[k1 v1] o IH]; simpl; [discriminate|].
  destruct (String.eqb_spec k k1) as [->|Hne]; [now left|].
  intros H. right. now apply IH.
Qed.

Lemma appReducer_keys s a :
  obj_keys s = obj_keys initialState ->
  obj_keys (appReducer s a) = obj_keys initialState.
Proof.
  intros Hs.
  assert (Hhas : forall k, In k (obj_keys initialState) ->
                           forall o, obj_keys o = obj_keys initialState ->
                                     obj_has k o = true).
  { intros k Hk o Ho. apply obj_has_key. now rewrite Ho. }
  destruct a as [ty p]. unfold appReducer; simpl.
  destruct ty; try assumption.
  repeat match goal with
  | |- context [if String.eqb ?t ?c then _ else _] =>
      destruct (String.eqb t c)
  end; try assumption; try reflexivity;
  repeat (rewrite obj_keys_set_present;
          [|apply Hhas; [simpl; tauto|]]); try assumption;
  rewrite obj_keys_set_present; try assumption;
  apply Hhas; try assumption; simpl; tauto.
Qed.

(** X1. Whatever actions are dispatched, the state keeps exactly the
    eight properties of [initialState], in their order: the reducer adds
    none, drops none and moves none. *)
Theorem reducer_keeps_state_shape :
  forall actions,
    obj_keys (reduce initialState actions)
    = [ "uploadedFile"; "processingStatus"; "extractionResults";
        "accuracyMetrics"; "currentStep"; "totalSteps"; "error";
        "processingProgress" ].
Proof.
  intros actions. change (obj_keys (reduce initialState actions)
                          = obj_keys initialState).
  unfold reduce.
  assert (H : obj_keys initialState = obj_keys initialState) by reflexivity.
  revert H. generalize initialState at 1 3.
  induction actions as [|a actions IH]; intros s Hs; simpl; [exact Hs|].
  apply IH. now apply appReducer_keys.
Qed.

Lemma appReducer_totalSteps s a :
  obj_read "totalSteps" s = VNum 4 ->
  obj_read "totalSteps" (appReducer s a) = VNum 4.
Proof.
  intros Hs. destruct a as [ty p]. destruct ty; try exact Hs.
  destruct (String.eqb_spec s0 "RESET_STATE") as [->|Hne]; [reflexivity|].
  unfold obj_read. rewrite appReducer_frame;
    try (intros _; split; discriminate); try (intros _; discriminate);
    assumption.
Qed.

Lemma appReducer_progress_object s a :
  (exists o, obj_read "processingProgress" s = VObj o) ->
  exists o, obj_read "processingProgress" (appReducer s a) = VObj o.
Proof.
  intros Hs. destruct a as [ty p]. destruct ty; try exact Hs.
  destruct (String.eqb_spec s0 "RESET_STATE") as [->|Hr];
    [eexists; reflexivity|].
  destruct (String.eqb_spec s0 "SET_PROCESSING_PROGRESS") as [->|Hp].
  - unfold appReducer; simpl. rewrite obj_read_set_same. now eexists.
  - unfold obj_read. rewrite appReducer_frame;
      try (intros _; split; discriminate); try (intros _; discriminate);
      try assumption.
    intros E. contradiction.
Qed.

(** X2. In every state the reducer can reach, [totalSteps] is 4 and
    [processingProgress] is an object, so that reading the stages and
    [Object.values] of it never throw. *)
Theorem reducer_keeps_steps_and_progress :
  forall actions,
    obj_read "totalSteps" (reduce initialState actions) = VNum 4 /\
    (exists o,
        obj_read "processingProgress" (reduce initialState actions) = VObj o) /\
    ProcessingStatus.steps
      (obj_read "processingProgress" (reduce initialState actions)) <> None.
Proof.
  intros actions.
  assert (H : obj_read "totalSteps" (reduce initialState actions) = VNum 4 /\
              exists o, obj_read "processingProgress"
                          (reduce initialState actions) = VObj o).
  { unfold reduce.
    assert (H0 : obj_read "totalSteps" initialState = VNum 4 /\
                 exists o, obj_read "processingProgress" initialState = VObj o)
      by (split; [reflexivity|eexists; reflexivity]).
    revert H0. generalize initialState.
    induction actions as [|a actions IH]; intros s Hs; simpl; [exact Hs|].
    apply IH. destruct Hs as [H1 H2]. split.
    - now apply appReducer_totalSteps.
    - now apply appReducer_progress_object. }
  destruct H as [H1 [o H2]]. split; [exact H1|]. split; [now exists o|].
  rewrite H2. discriminate.
Qed.

(** ** Merging progress *)

Lemma obj_get_spread k target source :
  obj_get k (obj_spread target source)
  = match obj_get k (rev source) with
    | Some v => Some v
    | None => obj_get k target
    end.
Proof.
  unfold obj_spread. revert target.
  induction source as [|[k1 v1] source IH]; intros target; simpl;
    [reflexivity|].
  rewrite IH, obj_get_app.
  destruct (obj_get k (rev source)); [reflexivity|].
  simpl. destruct (String.eqb_spec k k1) as [->|Hne].
  - apply obj_get_set_same.
  - now apply obj_get_set_other.
Qed.

Lemma obj_get_rev_nodup k o :
  NoDup (obj_keys o) -> obj_get k (rev o) = obj_get k o.
Proof.
  induction o as [|[k1 v1] o IH]; simpl; [reflexivity|].
  intros H. inversion H as [|? ? Hnot Hrest]; subst.
  rewrite obj_get_app, (IH Hrest). simpl.
  destruct (String.eqb_spec k k1) as [->|Hne].
  - destruct (obj_get k1 o) eqn:E; [|reflexivity].
    exfalso. apply Hnot. now apply obj_get_key in E.
  - now destruct (obj_get k o).
Qed.

Lemma obj_keys_spread_present target source :
  (forall k, In k (obj_keys source) -> In k (obj_keys target)) ->
  obj_keys (obj_spread target source) = obj_keys target.
Proof.
  unfold obj_spread. revert target.
  induction source as [|[k1 v1] source IH]; intros target H; simpl;
    [reflexivity|].
  assert (Hk : obj_keys (obj_set k1 v1 target) = obj_keys target).
  { apply obj_keys_set_present, obj_has_key, H. now left. }
  rewrite IH; [exact Hk|].
  intros k Hin. rewrite Hk. apply H. now right.
Qed.

(** X3. [SET_PROCESSING_PROGRESS] with an object merges it into the
    progress: a stage the payload names reads as the payload says, every
    other stage as before, and no other property of the state changes;
    when the payload names only stages that exist, the stages keep their
    order. *)
Theorem SET_PROCESSING_PROGRESS_merges :
  forall (s payload : obj),
    NoDup (obj_keys payload) ->
    let old := own_props (obj_read "processingProgress" s) in
    let s' := appReducer s (SET_PROCESSING_PROGRESS (VObj payload)) in
    exists merged,
      obj_read "processingProgress" s' = VObj merged /\
      (forall k,
          obj_get k merged
          = match obj_get k payload with
            | Some v => Some v
            | None => obj_get k old
            end) /\
      (forall k, k <> "processingProgress" -> obj_get k s' = obj_get k s) /\
      ((forall k, In k (obj_keys payload) -> In k (obj_keys old)) ->
       obj_keys merged = obj_keys old).
Proof.
  intros s payload Hnodup old s'.
  exists (obj_spread old payload). subst s'.
  unfold appReducer; simpl. split; [apply obj_read_set_same|].
  split.
  { intros k. rewrite obj_get_spread. now rewrite obj_get_rev_nodup. }
  split.
  { intros k Hk. now apply obj_get_set_other. }
  apply obj_keys_spread_present.
Qed.

Lemma SET_PROCESSING_PROGRESS_merges_witness :
  exists merged,
    obj_read "processingProgress"
      (appReducer initialState
         (SET_PROCESSING_PROGRESS (VObj [("validation", VNum 40)])))
    = VObj merged /\
    obj_get "validation" merged = Some (VNum 40) /\
    obj_get "ocr" merged = Some (VNum 0) /\
    obj_keys merged = ProcessingStatus.stages.
Proof.
  destruct (SET_PROCESSING_PROGRESS_merges initialState
              [("validation", VNum 40)]) as (merged & H1 & H2 & _ & H4).
  { repeat constructor. simpl. tauto. }
  exists merged. split; [exact H1|].
  split; [exact (H2 "validation")|]. split; [exact (H2 "ocr")|].
  apply H4. simpl. intros k [<-|[]]. tauto.
Defined.

(** ** Runs of the upload handler *)

(** X5. A run with a file posts the file to /upload exactly once, posts
    to /extract at most once, and posts nowhere else. *)
Theorem handleProcess_requests :
  forall host file upload extraction,
    let es := trace host (Some file) upload extraction in
    posts "/upload" es = [VObj [("file", VFile file)]] /\
    (List.length (posts "/extract" es) <= 1)%nat /\
    Forall (fun e => match e with
                     | Post path _ => path = "/upload" \/ path = "/extract"
                     | _ => True
                     end) es.
Proof.
  intros host file upload extraction. cbv zeta.
  handler_paths; cbn; (split; [reflexivity|]); (split; [lia|]);
    repeat (apply Forall_cons;
            [first [exact I | left; reflexivity | right; reflexivity]|]);
    apply Forall_nil.
Qed.

(** X6. When a run reports an error, the payload is a message; the same
    message is shown in one toast, the results page is not opened, and
    the run leaves the state with that message in [error] and the status
    ['error']. *)
Theorem handleProcess_reports_failure :
  forall host file upload extraction payload,
    In payload (dispatches "SET_ERROR"
                  (trace host (Some file) upload extraction)) ->
    exists message,
      payload = VStr message /\
      toasts (trace host (Some file) upload extraction)
      = [("Processing failed: " ++ message)%string] /\
      ~ In "/results" (navigations (trace host (Some file) upload extraction)) /\
      dispatches "SET_EXTRACTION_RESULTS"
        (trace host (Some file) upload extraction) = [] /\
      forall st,
        let st' := apply_effects st (trace host (Some file) upload extraction) in
        obj_read "error" (snd st') = VStr message /\
        obj_read "processingStatus" (snd st') = VStr "error".
Proof.
  intros host file upload extraction payload.
  handler_paths; cbn; try tauto;
    (intros [<-|[]]; eexists; split; [reflexivity|];
     split; [reflexivity|]; split;
     [ intros H; repeat (destruct H as [H|H]; [discriminate H|]); exact H |];
     split; [reflexivity|];
     intros st; split;
     [ rewrite obj_read_set_other by discriminate; apply obj_read_set_same
     | apply obj_read_set_same ]).
Qed.

Lemma handleProcess_reports_failure_witness :
  exists message,
    VStr "Network Error" = VStr message /\
    toasts (trace a_host (Some a_file) (Rejects "Network Error")
              (Rejects "not reached"))
    = [("Processing failed: " ++ message)%string].
Proof.
  destruct (handleProcess_reports_failure a_host a_file
              (Rejects "Network Error") (Rejects "not reached")
              (VStr "Network Error") (or_introl eq_refl))
    as (message & H1 & H2 & _).
  exists message. split; assumption.
Defined.

(** X7. When a run dispatches the results, it opens the processing page
    and then the results page, shows no toast, and leaves the state with
    the status ['completed'] and with the three metrics read from the
    result in [accuracyMetrics]. *)
Theorem handleProcess_completes :
  forall host file upload extraction d,
    In d (dispatches "SET_EXTRACTION_RESULTS"
            (trace host (Some file) upload extraction)) ->
    navigations (trace host (Some file) upload extraction)
    = ["/processing"; "/results"] /\
    toasts (trace host (Some file) upload extraction) = [] /\
    forall st,
      let st' := apply_effects st (trace host (Some file) upload extraction) in
      obj_read "processingStatus" (snd st') = VStr "completed" /\
      obj_read "accuracyMetrics" (snd st')
      = VObj [ ("accuracy_rate", obj_read "accuracy_rate" (own_props d));
               ("total_cells", obj_read "total_cells" (own_props d));
               ("validation_errors",
                 obj_read "validation_errors" (own_props d)) ].
Proof.
  intros host file upload extraction d.
  handler_paths; cbn; try tauto.
  intros [<-|[]]. split; [reflexivity|]. split; [reflexivity|].
  intros st. split.
  - rewrite obj_read_set_other by discriminate. apply obj_read_set_same.
  - apply obj_read_set_same.
Qed.

Lemma handleProcess_completes_witness :
  obj_read "processingStatus"
    (snd (apply_effects (initialLocal, initialState)
            (trace a_host (Some a_file) (Resolves upload_with_filepath)
               (Resolves documented_response))))
  = VStr "completed".
Proof.
  apply (handleProcess_completes a_host a_file
           (Resolves upload_with_filepath) (Resolves documented_response)
           documented_response (or_introl eq_refl)).
Defined.

(** X8. A run that reports no error leaves [error] as it found it: the
    handler never clears the message of an earlier failure, not even when
    it succeeds. *)
Theorem handleProcess_keeps_old_error :
  forall host file upload extraction st,
    dispatches "SET_ERROR" (trace host file upload extraction) = [] ->
    obj_get "error"
      (snd (apply_effects st (trace host file upload extraction)))
    = obj_get "error" (snd st).
Proof.
  intros host [file|] upload extraction st; [|reflexivity].
  handler_paths; cbn; try discriminate; intros _;
    repeat (rewrite obj_get_set_other by discriminate); reflexivity.
Qed.

Lemma handleProcess_keeps_old_error_witness :
  obj_get "error"
    (snd (apply_effects
            (initialLocal, appReducer initialState
                             (mkAction (VStr "SET_ERROR") (VStr "Network Error")))
            (trace a_host (Some a_file) (Resolves upload_with_filepath)
               (Resolves documented_response))))
  = Some (VStr "Network Error").
Proof.
  rewrite (handleProcess_keeps_old_error a_host (Some a_file)
             (Resolves upload_with_filepath) (Resolves documented_response)
             (initialLocal, appReducer initialState
                              (mkAction (VStr "SET_ERROR")
                                 (VStr "Network Error")))
             eq_refl).
  reflexivity.
Defined.

(** X9. Every page a run navigates to is a route of the application, and
    the results page is opened exactly when the results were
    dispatched. *)
Theorem handleProcess_navigates_to_routes :
  forall host file upload extraction,
    let es := trace host file upload extraction in
    Forall (fun p => In p App.routes) (navigations es) /\
    (In "/results" (navigations es)
     <-> dispatches "SET_EXTRACTION_RESULTS" es <> []).
Proof.
  intros host [file|] upload extraction; cbv zeta.
  2:{ split; [constructor|]. simpl. split; [tauto|congruence]. }
  handler_paths; cbn; (split; [repeat constructor; simpl; tauto|]);
    split; try congruence; try tauto;
    intros H; repeat (destruct H as [H|H]; [discriminate H|]);
    try contradiction; try discriminate.
Qed.

(** X10. What a run dispatches as results is always an object with a
    truthy [success] of its own, never a primitive, an array or [null];
    so after the run the results view passes its guard and reads its CSV
    from the [csv_data] of that object. *)
Theorem handleProcess_results_reach_the_view :
  forall host file upload extraction d,
    In d (dispatches "SET_EXTRACTION_RESULTS"
            (trace host (Some file) upload extraction)) ->
    exists o s,
      d = VObj o /\ obj_get "success" o = Some s /\ truthy s = true /\
      forall st,
        let results :=
          obj_read "extractionResults"
            (snd (apply_effects st
                    (trace host (Some file) upload extraction))) in
        ResultsView.shown results = true /\
        ResultsView.formatCSVData results
        = ResultsView.formatCSV (obj_read "csv_data" o).
Proof.
  intros host file upload extraction d.
  handler_paths; cbn; try tauto.
  intros [<-|[]].
  destruct (truthy_prop_object data0 "success" v0 eq_refl Eprop0 Etruthy0)
    as (o & -> & Ho).
  exists o, v0. split; [reflexivity|]. split; [exact Ho|].
  split; [assumption|].
  intros st.
  rewrite obj_read_set_other by discriminate.
  rewrite obj_read_set_other by discriminate.
  rewrite obj_read_set_same. split; reflexivity.
Qed.

Lemma handleProcess_results_reach_the_view_witness :
  exists o s,
    documented_response = VObj o /\ obj_get "success" o = Some s /\
    truthy s = true.
Proof.
  destruct (handleProcess_results_reach_the_view a_host a_file
              (Resolves upload_with_filepath) (Resolves documented_response)
              documented_response (or_introl eq_refl))
    as (o & s & H1 & H2 & H3 & _).
  exists o, s. repeat split; assumption.
Defined.

(** ** The file in the component and in the shared state *)

Lemma trace_keeps_file host file upload extraction :
  Forall keeps_file (trace host file upload extraction).
Proof.
  destruct file as [file|]; [|constructor].
  handler_paths; cbn; repeat constructor;
    try (eexists; split; [reflexivity|split; discriminate]).
Qed.

Lemma apply_effects_app st es1 es2 :
  apply_effects st (es1 ++ es2) = apply_effects (apply_effects st es1) es2.
Proof. unfold apply_effects. apply fold_left_app. Qed.

(** ** The shape of what the results view reads *)

Lemma split_length sep s :
  List.length (split sep s) = S (count_units sep s).
Proof.
  induction s as [|c s IH]; simpl; [reflexivity|].
  destruct (Ascii.eqb c sep); simpl; [now rewrite IH|].
  destruct (split sep s) as [|p ps]; simpl in *; [discriminate|exact IH].
Qed.

Lemma count_units_pieces c sep s :
  Ascii.eqb sep c = false ->
  list_sum (map (count_units c) (split sep s)) = count_units c s.
Proof.
  intros Hsep. induction s as [|c' s IH]; simpl; [reflexivity|].
  destruct (Ascii.eqb c' sep) eqn:E.
  - apply Ascii.eqb_eq in E. subst c'. rewrite Hsep. simpl. exact IH.
  - destruct (split sep s) as [|p ps]; simpl in *.
    + rewrite <- IH. lia.
    + rewrite <- IH. lia.
Qed.

Lemma formatCSV_text text :
  text <> EmptyString ->
  formatCSV (VStr text)
  = Some (map (fun line => map strip_quotes (split comma line))
              (split newline text)).
Proof.
  intros H. unfold formatCSV. simpl.
  destruct (String.eqb_spec text "") as [E|_]; [contradiction|reflexivity].
Qed.

Lemma formatCSV_text_shape text :
  text <> EmptyString ->
  exists rows,
    formatCSV (VStr text) = Some rows /\
    List.length rows = S (count_units newline text) /\
    Forall (fun row => row <> []) rows /\
    list_sum (map (@List.length string) rows)
    = (List.length rows + count_units comma text)%nat.
Proof.
  intros Htext. eexists. split; [now apply formatCSV_text|].
  split; [now rewrite length_map, split_length|].
  split.
  - apply Forall_map. apply Forall_forall. intros line _.
    destruct (split comma line) eqn:E; [|discriminate].
    pose proof (split_length comma line) as Hl. rewrite E in Hl.
    discriminate.
  - rewrite map_map, length_map.
    rewrite <- (count_units_pieces comma newline text eq_refl).
    induction (split newline text) as [|line lines IH]; simpl;
      [reflexivity|].
    rewrite length_map, split_length, IH. lia.
Qed.

(** X12. Without CSV text the view reads no row. For a text that is not
    empty it reads one row per line, none of them empty, and one cell
    more than there are commas in the line: the rows are the newlines
    plus one, the cells the rows plus the commas. *)
Theorem formatCSV_rows_and_cells :
  (forall csv, truthy csv = false -> formatCSV csv = Some []) /\
  (forall text,
      text <> EmptyString ->
      exists rows,
        formatCSV (VStr text) = Some rows /\
        List.length rows = S (count_units newline text) /\
        Forall (fun row => row <> []) rows /\
        list_sum (map (@List.length string) rows)
        = (List.length rows + count_units comma text)%nat).
Proof.
  split.
  - intros csv H. unfold formatCSV. now rewrite H.
  - apply formatCSV_text_shape.
Qed.

Lemma formatCSV_rows_and_cells_witness :
  exists rows,
    formatCSV (VStr "header1,header2,header3") = Some rows /\
    List.length rows = 1%nat /\
    list_sum (map (@List.length string) rows) = 3%nat.
Proof.
  destruct (proj2 formatCSV_rows_and_cells "header1,header2,header3")
    as (rows & H1 & H2 & _ & H4); [discriminate|].
  exists rows. split; [exact H1|]. split; [exact H2|].
  rewrite H4, H2. reflexivity.
Defined.

(** X13. A text of lines joined by newlines, each of cells joined by
    commas, is read back cell by cell as it was written, provided no cell
    contains a comma, a double quote or a newline, no row is empty and the
    text is not empty. *)
Theorem formatCSV_reads_plain_text_back :
  forall table,
    table <> [] ->
    Forall (fun row =>
              row <> [] /\
              Forall (fun cell =>
                        occurs comma cell = false /\
                        occurs dquote cell = false /\
                        occurs newline cell = false) row) table ->
    join newline (map (join comma) table) <> EmptyString ->
    formatCSV (VStr (join newline (map (join comma) table))) = Some table.
Proof.
  intros table Hne Hrows Htext.
  rewrite formatCSV_text by assumption. f_equal.
  rewrite split_join.
  - rewrite map_map. apply map_id_on.
    eapply Forall_impl; [|exact Hrows].
    intros row [Hrow Hcells]. simpl.
    rewrite split_join; [|assumption|].
    + apply map_id_on. eapply Forall_impl; [|exact Hcells].
      intros cell (_ & Hq & _). now apply strip_quotes_without.
    + eapply Forall_impl; [|exact Hcells]. now intros cell (Hc & _).
  - destruct table; [congruence|discriminate].
  - apply Forall_map. eapply Forall_impl; [|exact Hrows].
    intros row [_ Hcells]. simpl.
    apply occurs_join; [reflexivity|].
    eapply Forall_impl; [|exact Hcells]. now intros cell (_ & _ & Hn).
Qed.

Lemma formatCSV_reads_plain_text_back_witness :
  formatCSV (VStr (join newline (map (join comma)
                                   [["Item"; "Amount"]; ["Rent"; "1000"]])))
  = Some [["Item"; "Amount"]; ["Rent"; "1000"]].
Proof.
  apply formatCSV_reads_plain_text_back.
  - discriminate.
  - repeat constructor; discriminate.
  - discriminate.
Defined.

(** X14. The view builds its preview only when it has no validation
    result to list. For a stored result whose [validation_results] is
    missing, empty or otherwise not of a length above 0, and whose CSV
    text is not empty, the element the view returns has a preview with a
    header, the first row read, and a body of the rows after it in their
    order, five at most. For a stored result that lists validation
    results (an array that is not empty), the view throws before it
    reaches the preview: its validation section names [Shield], which
    the file neither imports nor declares. *)
Theorem preview_shows_header_and_five_rows :
  forall engine_above_0 extractionResults text,
    truthy extractionResults = true ->
    csv_data extractionResults = VStr text ->
    text <> EmptyString ->
    let validation_results :=
      obj_read "validation_results" (own_props extractionResults) in
    (lists_validation engine_above_0 validation_results = false ->
     exists rows header metrics,
       formatCSV (VStr text) = Some rows /\
       nth_error rows 0 = Some header /\
       render engine_above_0 extractionResults
       = Element metrics (Some (Some header, previewBody rows)) /\
       List.length (previewBody rows) = Nat.min 5 (count_units newline text) /\
       forall i,
         nth_error (previewBody rows) i
         = if (i <? 5)%nat then nth_error rows (S i) else None) /\
    (lists_validation engine_above_0 validation_results = true ->
     render engine_above_0 extractionResults
     = Throws (ReferenceError "Shield")) /\
    (forall result results,
        validation_results = VArr (result :: results) ->
        render engine_above_0 extractionResults
        = Throws (ReferenceError "Shield")) /\
    (truthy validation_results = false \/ validation_results = VArr [] ->
     lists_validation engine_above_0 validation_results = false).
Proof.
  intros engine_above_0 extractionResults text Hshown Hcsv Htext.
  cbv zeta. unfold csv_data in Hcsv.
  assert (Htruthy : truthy (VStr text) = true).
  { simpl. destruct (String.eqb_spec text ""); [contradiction|reflexivity]. }
  split; [|split; [|split]].
  - intros Hlist.
    destruct (formatCSV_text_shape text Htext)
      as (rows & Hrows & Hlen & _ & _).
    destruct rows as [|header rest]; [discriminate Hlen|].
    exists (header :: rest), header. eexists.
    split; [exact Hrows|]. split; [reflexivity|]. split.
    + unfold render. rewrite Hshown. cbn [negb]. rewrite Hlist, Hcsv, Htruthy.
      rewrite Hrows. reflexivity.
    + unfold previewBody, slice. simpl skipn. simpl Nat.sub. split.
      * rewrite length_firstn. simpl in Hlen. injection Hlen as ->.
        reflexivity.
      * intros i. rewrite nth_error_firstn. reflexivity.
  - intros Hlist. unfold render. rewrite Hshown. cbn [negb].
    rewrite Hlist. reflexivity.
  - intros result results Hresults. unfold render. rewrite Hshown.
    cbn [negb]. rewrite Hresults. reflexivity.
  - intros [H| ->]; [|reflexivity].
    destruct (obj_read "validation_results" (own_props extractionResults))
      as [| |b|x|t|xs|o|f]; try reflexivity; try discriminate H.
    simpl in H. destruct t; [reflexivity|discriminate H].
Qed.

Lemma preview_shows_header_and_five_rows_witness :
  exists rows header metrics,
    formatCSV (VStr "header1,header2,header3") = Some rows /\
    nth_error rows 0 = Some header /\
    render (fun _ => false) documented_response
    = Element metrics (Some (Some header, previewBody rows)) /\
    List.length (previewBody rows) = 0%nat.
Proof.
  destruct (preview_shows_header_and_five_rows (fun _ => false)
              documented_response "header1,header2,header3"
              eq_refl eq_refl)
    as (H & _); [discriminate|].
  destruct (H eq_refl) as (rows & header & metrics & H1 & H2 & H3 & H4 & _).
  exists rows, header, metrics. repeat split; assumption.
Defined.

(** ** The steps of the processing view *)

(** X15. A step is shown active only if it is the current step and its
    progress is below 100; as the view never advances [currentStep], none
    but the first step is ever active; an index without a step makes
    [getStepStatus] throw. *)
Theorem getStepStatus_active_step :
  (forall progresses current i,
      getStepStatus progresses current i = Some "active" ->
      i = current /\
      exists p, nth_error progresses i = Some p /\
                at_least_100 p = Some false) /\
  (forall progresses i,
      getStepStatus progresses currentStep (S i) <> Some "active") /\
  (forall progresses current i,
      (List.length progresses <= i)%nat ->
      getStepStatus progresses current i = None).
Proof.
  assert (H : forall progresses current i,
             getStepStatus progresses current i = Some "active" ->
             i = current /\
             exists p, nth_error progresses i = Some p /\
                       at_least_100 p = Some false).
  { intros ps cur i. unfold getStepStatus.
    destruct (nth_error ps i) as [p|]; [|discriminate].
    destruct (at_least_100 p) as [[|]|] eqn:Ep; try discriminate.
    destruct (Nat.eqb_spec i cur); [|discriminate].
    intros _. split; [assumption|]. now exists p. }
  split; [exact H|]. split.
  - intros ps i Hi. apply H in Hi. destruct Hi as [Hi _]. discriminate Hi.
  - intros ps cur i Hlen. unfold getStepStatus.
    apply nth_error_None in Hlen. now rewrite Hlen.
Qed.

Lemma getStepStatus_active_step_witness :
  getStepStatus [VNum 40; VNum 0; VNum 0; VNum 0] currentStep 0
  = Some "active" /\
  O = currentStep.
Proof.
  split; [reflexivity|].
  apply (proj1 getStepStatus_active_step
           [VNum 40; VNum 0; VNum 0; VNum 0] currentStep 0%nat).
  reflexivity.
Defined.

Lemma completed_exact_100 : forallb completed_exact (upto 100) = true.
Proof. vm_compute. reflexivity. Qed.

Lemma percent_completed n :
  (0 <= n <= 100)%Z ->
  (at_least_100 (VNum (percent n)) = Some true <-> n = 100%Z).
Proof.
  intros Hn. pose proof completed_exact_100 as H.
  rewrite forallb_forall in H. specialize (H n (In_upto 100 n Hn)).
  unfold completed_exact in H. apply Bool.eqb_prop in H.
  unfold at_least_100; simpl. rewrite H. rewrite <- Z.eqb_eq.
  destruct (n =? 100)%Z; split; congruence.
Qed.

(** X16. For a progress record with exactly the four stage entries, each
    a whole number between 0 and 100, the view announces the run as
    complete exactly when it shows every one of the four steps as
    completed. With further entries in the record the two part: with the
    four stages at 0 and four more entries at 100 the run is announced as
    complete while the first step is shown active and the others
    pending. *)
Theorem complete_when_all_steps_completed :
  (forall a b c d : Z,
      (0 <= a <= 100)%Z -> (0 <= b <= 100)%Z ->
      (0 <= c <= 100)%Z -> (0 <= d <= 100)%Z ->
      let processingProgress :=
        progress (percent a) (percent b) (percent c) (percent d) in
      exists progresses total,
        steps processingProgress = Some progresses /\
        totalProgress processingProgress = Some total /\
        (complete total = true <->
         forall i, (i < 4)%nat ->
                   getStepStatus progresses currentStep i = Some "completed")) /\
  (exists progresses total,
      steps overfull_progress = Some progresses /\
      totalProgress overfull_progress = Some total /\
      complete total = true /\
      map (getStepStatus progresses currentStep) [0; 1; 2; 3]%nat
      = [Some "active"; Some "pending"; Some "pending"; Some "pending"]).
Proof.
  split;
    [|eexists; eexists; split; [reflexivity|];
      split; [reflexivity|]; split; reflexivity].
  intros a b c d Ha Hb Hc Hd pp.
  assert (Hs : (0 <= a + b + c + d <= 400)%Z) by lia.
  pose proof (quarter_of_sum _ Hs) as H.
  unfold quarter_exact in H. cbv zeta in H.
  apply andb_prop in H. destruct H as [_ Hcomplete].
  apply Bool.eqb_prop in Hcomplete.
  exists [VNum (percent a); VNum (percent b); VNum (percent c);
          VNum (percent d)], (percent (a + b + c + d) / 4)%float.
  split; [reflexivity|]. split.
  { unfold totalProgress, pp, progress. cbn [own_props obj_values map snd].
    now rewrite reduce_sum_percents. }
  rewrite Hcomplete, Z.eqb_eq.
  pose proof (percent_completed a Ha) as Pa.
  pose proof (percent_completed b Hb) as Pb.
  pose proof (percent_completed c Hc) as Pc.
  pose proof (percent_completed d Hd) as Pd.
  assert (St : forall p i,
             getStepStatus [VNum (percent a); VNum (percent b);
                            VNum (percent c); VNum (percent d)]
               currentStep i = Some "completed" ->
             nth_error [VNum (percent a); VNum (percent b);
                        VNum (percent c); VNum (percent d)] i = Some p ->
             at_least_100 p = Some true).
  { intros p i Hst Hp. unfold getStepStatus in Hst. rewrite Hp in Hst.
    destruct (at_least_100 p) as [[|]|]; try discriminate; [reflexivity|].
    destruct (Nat.eqb i currentStep); discriminate. }
  split.
  - intros Hsum.
    assert (a = 100 /\ b = 100 /\ c = 100 /\ d = 100)%Z as (-> & -> & -> & ->)
      by lia.
    intros i Hi.
    destruct i as [|[|[|[|i]]]]; try lia; reflexivity.
  - intros Hall.
    pose proof (St _ 0%nat (Hall 0%nat ltac:(lia)) eq_refl) as Ea.
    pose proof (St _ 1%nat (Hall 1%nat ltac:(lia)) eq_refl) as Eb.
    pose proof (St _ 2%nat (Hall 2%nat ltac:(lia)) eq_refl) as Ec.
    pose proof (St _ 3%nat (Hall 3%nat ltac:(lia)) eq_refl) as Ed.
    apply Pa in Ea. apply Pb in Eb. apply Pc in Ec. apply Pd in Ed. lia.
Qed.

Lemma complete_when_all_steps_completed_witness :
  exists progresses total,
    steps (progress (percent 100) (percent 100) (percent 100) (percent 100))
    = Some progresses /\
    totalProgress
      (progress (percent 100) (percent 100) (percent 100) (percent 100))
    = Some total /\
    (complete total = true <->
     forall i, (i < 4)%nat ->
               getStepStatus progresses currentStep i = Some "completed").
Proof.
  apply (proj1 complete_when_all_steps_completed 100%Z 100%Z 100%Z 100%Z); lia.
Defined.

(** ** A stage that is not a number *)

Lemma nan_plus x : (nan + x)%float = nan.
Proof.
  apply FloatAxioms.Prim2SF_inj. rewrite FloatAxioms.add_spec.
  change (Prim2SF nan) with S754_nan.
  unfold FloatAxioms.SF64add, SFadd. now destruct (Prim2SF x).
Qed.

Lemma plus_nan x : (x + nan)%float = nan.
Proof.
  apply FloatAxioms.Prim2SF_inj. rewrite FloatAxioms.add_spec.
  change (Prim2SF nan) with S754_nan.
  unfold FloatAxioms.SF64add, SFadd. now destruct (Prim2SF x).
Qed.

Lemma reduce_from_nan values :
  Forall (fun v => to_number v <> None) values ->
  fold_left
    (fun acc v => match acc with Some sum => plus sum v | None => None end)
    values (Some (VNum nan))
  = Some (VNum nan).
Proof.
  induction 1 as [|v values Hv _ IH]; simpl; [reflexivity|].
  unfold plus at 2. simpl to_number at 1.
  destruct (to_number v) as [x|]; [|congruence].
  rewrite nan_plus. exact IH.
Qed.

Lemma reduce_with_undefined values sum :
  Forall (fun v => to_number v <> None) values ->
  In VUndef values ->
  fold_left
    (fun acc v => match acc with Some sum => plus sum v | None => None end)
    values (Some (VNum sum))
  = Some (VNum nan).
Proof.
  intros H. revert sum.
  induction H as [|v values Hv Hrest IH]; intros sum Hin; [destruct Hin|].
  simpl. unfold plus at 2. simpl to_number at 1.
  destruct Hin as [->|Hin].
  - simpl. rewrite plus_nan. now apply reduce_from_nan.
  - destruct (to_number v) as [x|]; [|congruence]. now apply IH.
Qed.

(** X17. When a stage of the progress is [undefined] (and the others are
    numbers, booleans or [null]), the overall progress is NaN whatever the
    other stages are, and the run is never shown as complete. *)
Theorem undefined_stage_never_completes :
  forall o : obj,
    Forall (fun v => to_number v <> None) (obj_values o) ->
    In VUndef (obj_values o) ->
    totalProgress (VObj o) = Some nan /\ complete nan = false.
Proof.
  intros o Hnum Hin. split; [|reflexivity].
  unfold totalProgress, reduce_sum. cbn [own_props].
  now rewrite reduce_with_undefined.
Qed.

Lemma undefined_stage_never_completes_witness :
  totalProgress (progress 100 100 100 nan) = Some nan /\
  totalProgress
    (obj_read "processingProgress"
       (appReducer initialState
          (SET_PROCESSING_PROGRESS
             (VObj [("ocr", VUndef); ("validation", VNum 100)]))))
  = Some nan.
Proof.
  split; [reflexivity|].
  apply (undefined_stage_never_completes
           [ ("ocr", VUndef); ("tableDetection", VNum 0);
             ("validation", VNum 100); ("csvGeneration", VNum 0) ]).
  - repeat constructor; discriminate.
  - simpl. tauto.
Defined.

(** ** The links of the header *)

Lemma prefix_app p s :
  String.prefix p s = true <-> exists rest, s = (p ++ rest)%string.
Proof.
  revert s. induction p as [|c p IH]; intros s; simpl.
  - split; [intros _; now exists s|intros _; now destruct s].
  - destruct s as [|c' s]; simpl.
    + split; [discriminate|intros [rest H]; discriminate].
    + destruct (ascii_dec c c') as [->|Hne].
      * rewrite IH. split; intros [rest H]; exists rest; congruence.
      * split; [discriminate|intros [rest H]; congruence].
Qed.

(** X18. The upload link is active on the root path and nowhere else, the
    analytics link on every path that starts with /analytics; the two are
    never active together, and on the processing and results pages no
    link is active. *)
Theorem header_links_exclusive :
  (forall pathname, Header.isActive pathname "/" = true <-> pathname = "/") /\
  (forall pathname,
      Header.isActive pathname "/analytics" = true
      <-> exists rest, pathname = ("/analytics" ++ rest)%string) /\
  (forall pathname,
      ~ (Header.isActive pathname "/" = true /\
         Header.isActive pathname "/analytics" = true)) /\
  Forall (fun link => Header.isActive "/processing" link = false
                      /\ Header.isActive "/results" link = false)
         Header.links.
Proof.
  assert (H1 : forall pathname,
             Header.isActive pathname "/" = true <-> pathname = "/").
  { intros pathname. unfold Header.isActive. simpl. apply String.eqb_eq. }
  assert (H2 : forall pathname,
             Header.isActive pathname "/analytics" = true
             <-> exists rest, pathname = ("/analytics" ++ rest)%string).
  { intros pathname. unfold Header.isActive.
    change (String.eqb "/analytics" "/") with false. cbv iota.
    apply prefix_app. }
  split; [exact H1|]. split; [exact H2|]. split.
  - intros pathname [Ha Hb]. apply H1 in Ha. apply H2 in Hb.
    destruct Hb as [rest Hb]. subst pathname. discriminate Hb.
  - repeat constructor.
Qed.

(** ** The API proxy *)

Lemma skip_units_app p rest :
  ApiProxy.skip_units (String.length p) (p ++ rest) = rest.
Proof. induction p as [|c p IH]; simpl; [now destruct rest|exact IH]. Qed.

Lemma remove_first_prefix p rest :
  ApiProxy.remove_first p (p ++ rest) = rest.
Proof.
  destruct (p ++ rest)%string as [|c s] eqn:E.
  - destruct p; [simpl in E; now subst|discriminate].
  - cbn [ApiProxy.remove_first]. rewrite <- E.
    assert (Hp : String.prefix p (p ++ rest) = true)
      by (apply prefix_app; now exists rest).
    rewrite Hp. apply skip_units_app.
Qed.

Lemma remove_first_absent p s :
  occurs_in p s = false -> ApiProxy.remove_first p s = s.
Proof.
  induction s as [|c s IH]; [reflexivity|].
  cbn [occurs_in ApiProxy.remove_first]. intros H.
  apply orb_false_elim in H. destruct H as [Hp Hs].
  rewrite Hp. now rewrite IH.
Qed.

Lemma skip_units_length n s :
  String.length (ApiProxy.skip_units n s) = (String.length s - n)%nat.
Proof.
  revert s. induction n as [|n IH]; intros s; simpl; [lia|].
  destruct s as [|c s]; simpl; [reflexivity|apply IH].
Qed.

Lemma length_append s1 s2 :
  String.length (s1 ++ s2) = (String.length s1 + String.length s2)%nat.
Proof. induction s1 as [|c s1 IH]; simpl; [reflexivity|now rewrite IH]. Qed.

Lemma prefix_length p s :
  String.prefix p s = true -> (String.length p <= String.length s)%nat.
Proof.
  intros H. apply prefix_app in H. destruct H as [rest ->].
  rewrite length_append. lia.
Qed.

Lemma remove_first_length p s :
  occurs_in p s = true ->
  (String.length (ApiProxy.remove_first p s) + String.length p
   = String.length s)%nat.
Proof.
  induction s as [|c s IH].
  - cbn [occurs_in]. rewrite orb_false_r. intros H.
    apply prefix_length in H. simpl in *. lia.
  - cbn [occurs_in ApiProxy.remove_first].
    destruct (String.prefix p (String c s)) eqn:Hp.
    + intros _. rewrite skip_units_length.
      apply prefix_length in Hp. lia.
    + simpl. intros H. specialize (IH H). lia.
Qed.

Lemma prefix_stable p x y :
  (String.length p <= String.length x)%nat ->
  String.prefix p (x ++ y) = String.prefix p x.
Proof.
  revert x. induction p as [|c p IH]; intros x Hlen;
    [now destruct x, y|].
  destruct x as [|c' x]; simpl in *; [lia|].
  destruct (ascii_dec c c'); [|reflexivity].
  apply IH. lia.
Qed.

Lemma append_assoc_unit pre rest :
  ((pre ++ "/ap") ++ String "i" rest)%string = (pre ++ "/api" ++ rest)%string.
Proof. induction pre as [|c pre IH]; simpl; [reflexivity|now rewrite IH]. Qed.

Lemma apiPath_first_occurrence pre rest :
  occurs_in "/api" (pre ++ "/ap") = false ->
  ApiProxy.apiPath (pre ++ "/api" ++ rest) = (pre ++ rest)%string.
Proof.
  unfold ApiProxy.apiPath.
  induction pre as [|c pre IH]; intros H.
  - apply (remove_first_prefix "/api" rest).
  - change ((String c pre ++ "/ap")%string)
      with (String c (pre ++ "/ap")) in H.
    cbn [occurs_in] in H. apply orb_false_elim in H. destruct H as [Hp Hs].
    change ((String c pre ++ "/api" ++ rest)%string)
      with (String c (pre ++ "/api" ++ rest)).
    change ((String c pre ++ rest)%string) with (String c (pre ++ rest)).
    cbn [ApiProxy.remove_first].
    assert (Hfar : String.prefix "/api" (String c (pre ++ "/api" ++ rest))
                   = false).
    { rewrite <- append_assoc_unit.
      change (String c ((pre ++ "/ap") ++ String "i" rest))
        with ((String c (pre ++ "/ap")) ++ String "i" rest)%string.
      rewrite prefix_stable; [exact Hp|].
      simpl. rewrite length_append. simpl. lia. }
    rewrite Hfar. f_equal. now apply IH.
Qed.

(** X19. The proxy drops the first /api of the request's path and only
    that: a path that starts with /api loses this prefix, a path without
    /api is forwarded as it is, and in general what stands before and
    after the first /api is kept, so the forwarded path is four units
    shorter. *)
Theorem apiPath_drops_first_api :
  (forall rest, ApiProxy.apiPath ("/api" ++ rest) = rest) /\
  (forall url, occurs_in "/api" url = false -> ApiProxy.apiPath url = url) /\
  (forall pre rest,
      occurs_in "/api" (pre ++ "/ap") = false ->
      ApiProxy.apiPath (pre ++ "/api" ++ rest) = (pre ++ rest)%string) /\
  (forall url,
      occurs_in "/api" url = true ->
      (String.length (ApiProxy.apiPath url) + 4 = String.length url)%nat).
Proof.
  split; [intros rest; apply (remove_first_prefix "/api")|].
  split; [intros url; apply remove_first_absent|].
  split; [apply apiPath_first_occurrence|].
  intros url H. apply (remove_first_length "/api" url H).
Qed.

Lemma apiPath_drops_first_api_witness :
  ApiProxy.apiPath "/health" = "/health" /\
  ApiProxy.apiPath "/v1/api/api/extract" = "/v1/api/extract" /\
  (String.length (ApiProxy.apiPath "/api/upload") + 4
   = String.length "/api/upload")%nat.
Proof.
  destruct apiPath_drops_first_api as (_ & H2 & H3 & H4).
  split; [apply H2; reflexivity|].
  split; [apply (H3 "/v1" "/api/extract"); reflexivity|].
  apply H4. reflexivity.
Defined.

Lemma statuses_app es1 es2 :
  ApiProxy.statuses (es1 ++ es2)
  = ApiProxy.statuses es1 ++ ApiProxy.statuses es2.
Proof. unfold ApiProxy.statuses. now rewrite flat_map_app. Qed.

Lemma statuses_headers (hs : obj) names :
  ApiProxy.statuses
    (map (fun name => ApiProxy.SetHeader name (obj_read name hs)) names) = [].
Proof. induction names as [|n names IH]; simpl; [reflexivity|exact IH]. Qed.

Lemma requests_headers (hs : obj) names tail :
  ApiProxy.requests
    (map (fun name => ApiProxy.SetHeader name (obj_read name hs)) names
     ++ tail)
  = ApiProxy.requests tail.
Proof. induction names as [|n names IH]; simpl; [reflexivity|exact IH]. Qed.

Lemma requests_cons e es :
  ApiProxy.requests (e :: es)
  = match e with ApiProxy.Request c => [c] | _ => [] end
    ++ ApiProxy.requests es.
Proof. reflexivity. Qed.

Lemma requests_handler BACKEND_URL host req answer :
  ApiProxy.requests (ApiProxy.handler BACKEND_URL host req answer)
  = match host with
    | inl h => [ApiProxy.forwarded BACKEND_URL h req]
    | inr _ => []
    end.
Proof.
  destruct host as [h|message]; [|reflexivity].
  destruct answer as [r|m]; [|reflexivity].
  unfold ApiProxy.handler. rewrite !requests_cons.
  now rewrite requests_headers.
Qed.

(** X20. The proxy answers every request with exactly one status and
    never throws: the backend's status, followed by each of the backend's
    headers in order and then the body, when the backend request resolved;
    otherwise 500 with a JSON body that names the error, also when the
    backend answered with an error status or [BACKEND_URL] is no URL, in
    which case no request is sent at all. *)
Theorem proxy_answers_once :
  forall BACKEND_URL host req answer,
    let es := ApiProxy.handler BACKEND_URL host req answer in
    List.length (ApiProxy.statuses es) = 1%nat /\
    match host, answer with
    | inl h, ApiProxy.Resolves r =>
        es = ApiProxy.Request (ApiProxy.forwarded BACKEND_URL h req)
             :: ApiProxy.Status (ApiProxy.status r)
             :: map (fun name =>
                       ApiProxy.SetHeader name
                         (obj_read name (ApiProxy.response_headers r)))
                    (obj_keys (ApiProxy.response_headers r))
             ++ [ApiProxy.Pipe]
    | inl h, ApiProxy.Rejects message =>
        ApiProxy.requests es = [ApiProxy.forwarded BACKEND_URL h req] /\
        ApiProxy.statuses es = [VNum 500] /\
        In (ApiProxy.Json (VObj [ ("error", VStr "Internal Server Error");
                                  ("message", VStr message) ])) es
    | inr message, _ =>
        ApiProxy.requests es = [] /\
        ApiProxy.statuses es = [VNum 500] /\
        In (ApiProxy.Json (VObj [ ("error", VStr "Internal Server Error");
                                  ("message", VStr message) ])) es
    end.
Proof.
  intros BACKEND_URL [h|message] req [r|m]; cbv zeta; cbn.
  - split; [|reflexivity].
    rewrite statuses_app, statuses_headers. reflexivity.
  - repeat split; tauto.
  - repeat split; tauto.
  - repeat split; tauto.
Qed.

(** X21. The request the proxy sends goes to [BACKEND_URL] followed by
    the path without its first /api, with the method and the body of the
    incoming request; its [host] header is the backend's host, and every
    other header of the incoming request is passed on unchanged. *)
Theorem proxy_forwards_request :
  forall BACKEND_URL host req answer config,
    In config (ApiProxy.requests
                 (ApiProxy.handler BACKEND_URL host req answer)) ->
    exists h hs,
      host = inl h /\
      obj_read "method" config = ApiProxy.method req /\
      obj_read "url" config
      = VStr (BACKEND_URL ++ ApiProxy.apiPath (ApiProxy.url req)) /\
      obj_read "data" config = ApiProxy.body req /\
      obj_read "headers" config = VObj hs /\
      obj_get "host" hs = Some (VStr h) /\
      forall name,
        name <> "host" ->
        obj_get name hs = obj_get name (own_props (ApiProxy.headers req)).
Proof.
  intros BACKEND_URL host req answer config.
  rewrite requests_handler. destruct host as [h|message]; [|intros []].
  intros [<-|[]].
  exists h, (obj_set "host" (VStr h) (own_props (ApiProxy.headers req))).
  repeat split.
  - apply obj_get_set_same.
  - intros name Hname. now apply obj_get_set_other.
Qed.

Lemma proxy_forwards_request_witness :
  exists h hs,
    @inl string string "backend.example" = inl h /\
    obj_read "headers"
      (ApiProxy.forwarded "https://backend.example" "backend.example"
         (ApiProxy.mkRequest (VStr "POST") "/api/upload" VNull
            (VObj [("host", VStr "front.example");
                   ("content-type", VStr "multipart/form-data")])))
    = VObj hs /\
    obj_get "host" hs = Some (VStr h) /\
    obj_get "content-type" hs = Some (VStr "multipart/form-data").
Proof.
  destruct (proxy_forwards_request "https://backend.example"
              (inl "backend.example")
              (ApiProxy.mkRequest (VStr "POST") "/api/upload" VNull
                 (VObj [("host", VStr "front.example");
                        ("content-type", VStr "multipart/form-data")]))
              (ApiProxy.Rejects "Network Error")
              (ApiProxy.forwarded "https://backend.example" "backend.example"
                 (ApiProxy.mkRequest (VStr "POST") "/api/upload" VNull
                    (VObj [("host", VStr "front.example");
                           ("content-type", VStr "multipart/form-data")]))))
    as (h & hs & H1 & _ & _ & _ & H5 & H6 & H7).
  { simpl. tauto. }
  exists h, hs. split; [exact H1|]. split; [exact H5|].
  split; [exact H6|].
  rewrite H7 by discriminate. reflexivity.
Defined.

(** ** What the upload component does to the shared state *)

Ltac component_pick :=
  unfold component_effect, component_action; cbn;
  first [ left; split; [reflexivity|first [left; reflexivity|right; reflexivity]]
        | right; left; reflexivity
        | right; right; left; reflexivity
        | right; right; right; left; reflexivity
        | right; right; right; right; reflexivity ].

Lemma trace_component_effects host file upload extraction :
  Forall component_effect (trace host file upload extraction).
Proof.
  destruct file as [file|]; [|constructor].
  handler_paths; cbn;
    repeat (apply Forall_cons; [first [exact I | component_pick]|]);
    apply Forall_nil.
Qed.

Lemma block_component_effects es : block es -> Forall component_effect es.
Proof.
  intros [files|host file upload extraction e Hin].
  - destruct files as [|f rest]; cbn; [constructor|].
    repeat (apply Forall_cons; [first [exact I | component_pick]|]).
    apply Forall_nil.
  - constructor; [|constructor].
    pose proof (trace_component_effects host file upload extraction) as H.
    rewrite Forall_forall in H. now apply H.
Qed.

Lemma shared_invariant (P : obj -> Prop) :
  (forall s a, component_action a -> P s -> P (appReducer s a)) ->
  forall blocks st,
    Forall block blocks -> P (snd st) ->
    P (snd (apply_effects st (List.concat blocks))).
Proof.
  intros Hstep blocks st Hblocks. revert st.
  assert (Heffects : forall es st,
             Forall component_effect es -> P (snd st) ->
             P (snd (apply_effects st es))).
  { induction es as [|e es IH]; intros st Hes Hst; [exact Hst|].
    inversion Hes as [|? ? He Hrest]; subst. cbn. apply IH; [exact Hrest|].
    destruct e; cbn in *; try exact Hst. now apply Hstep. }
  induction Hblocks as [|es blocks Hes _ IH]; intros st Hst; [exact Hst|].
  change (List.concat (es :: blocks)) with (es ++ List.concat blocks).
  rewrite apply_effects_app. apply IH. apply Heffects; [|exact Hst].
  now apply block_component_effects.
Qed.

Ltac component_cases a H :=
  destruct a as [ty p]; unfold component_action in H; cbn in H;
  destruct H as [[-> [-> | ->]] | [-> | [-> | [-> | ->]]]];
  unfold appReducer; cbn.

(** X22. However drops and running handlers interleave, the
    [processingStatus] of the shared state is always one of the five
    statuses the state's declaration lists: idle, uploading, processing,
    completed, error. *)
Theorem component_keeps_known_status :
  forall blocks,
    Forall block blocks ->
    exists status,
      In status known_statuses /\
      obj_read "processingStatus"
        (snd (apply_effects (initialLocal, initialState)
                (List.concat blocks)))
      = VStr status.
Proof.
  intros blocks H.
  apply (shared_invariant
           (fun s => exists status,
                In status known_statuses /\
                obj_read "processingStatus" s = VStr status));
    [|exact H|exists "idle"; split; [simpl; tauto|reflexivity]].
  intros s a Ha (status & Hin & Hs).
  component_cases a Ha.
  - exists "uploading". split; [simpl; tauto|apply obj_read_set_same].
  - exists "processing". split; [simpl; tauto|apply obj_read_set_same].
  - exists "completed". split; [simpl; tauto|apply obj_read_set_same].
  - exists status. split; [exact Hin|].
    now rewrite obj_read_set_other by discriminate.
  - exists "error". split; [simpl; tauto|apply obj_read_set_same].
  - exists "uploading". split; [simpl; tauto|apply obj_read_set_same].
Qed.

Lemma component_keeps_known_status_witness :
  exists status,
    In status known_statuses /\
    obj_read "processingStatus"
      (snd (apply_effects (initialLocal, initialState)
              (List.concat [onDrop [a_file]])))
    = VStr status.
Proof.
  apply component_keeps_known_status.
  apply Forall_cons; [apply block_drop|apply Forall_nil].
Defined.

(** X23. Nothing the upload component does moves the progress: however
    drops and running handlers interleave, the four stages stay at 0 and
    the shared [currentStep] at 0, so the overall progress stays 0, the
    run is never shown as complete, the first step is shown active and
    the other three pending. *)
Theorem component_never_advances_progress :
  forall blocks,
    Forall block blocks ->
    let shared :=
      snd (apply_effects (initialLocal, initialState) (List.concat blocks)) in
    obj_read "processingProgress" shared = progress 0 0 0 0 /\
    obj_read "currentStep" shared = VNum 0 /\
    totalProgress (obj_read "processingProgress" shared) = Some 0%float /\
    complete 0 = false /\
    exists progresses,
      steps (obj_read "processingProgress" shared) = Some progresses /\
      map (getStepStatus progresses currentStep) [0; 1; 2; 3]%nat
      = [Some "active"; Some "pending"; Some "pending"; Some "pending"].
Proof.
  intros blocks H shared.
  assert (Hinv : obj_read "processingProgress" shared = progress 0 0 0 0 /\
                 obj_read "currentStep" shared = VNum 0).
  { subst shared.
    apply (shared_invariant
             (fun s => obj_read "processingProgress" s = progress 0 0 0 0 /\
                       obj_read "currentStep" s = VNum 0));
      [|exact H|split; reflexivity].
    intros s a Ha [Hp Hc].
    component_cases a Ha;
      repeat (rewrite obj_read_set_other by discriminate); now split. }
  destruct Hinv as [Hp Hc]. rewrite Hp.
  split; [reflexivity|]. split; [exact Hc|].
  split; [reflexivity|]. split; [reflexivity|].
  eexists. split; reflexivity.
Qed.

Lemma component_never_advances_progress_witness :
  totalProgress
    (obj_read "processingProgress"
       (snd (apply_effects (initialLocal, initialState)
               (List.concat
                  [ onDrop [a_file];
                    [Dispatch (mkAction (VStr "SET_PROCESSING_STATUS")
                                 (VStr "processing"))] ]))))
  = Some 0%float.
Proof.
  apply (component_never_advances_progress
           [ onDrop [a_file];
             [Dispatch (mkAction (VStr "SET_PROCESSING_STATUS")
                          (VStr "processing"))] ]).
  apply Forall_cons; [apply block_drop|].
  apply Forall_cons; [|apply Forall_nil].
  apply (block_handler a_host (Some a_file) (Resolves upload_with_filepath)
           (Rejects "Network Error")).
  simpl. tauto.
Defined.

(** ** The process button during a run *)

Lemma trace_brackets host file upload extraction :
  exists middle,
    trace host (Some file) upload extraction
    = SetIsProcessing true :: middle ++ [SetIsProcessing false] /\
    Forall keeps_flag middle.
Proof.
  handler_paths; cbn;
    (eexists; split;
     [ match goal with
       | |- SetIsProcessing true :: ?l = _ =>
           let l' := eval cbn in (removelast l) in
           instantiate (1 := l'); reflexivity
       end
     | repeat (apply Forall_cons; [exact I|]); apply Forall_nil ]).
Qed.

Lemma app_split_last {A} (xs ys : list A) (z : A) (us vs : list A) :
  xs ++ [z] = us ++ vs -> vs <> [] ->
  exists vs', vs = vs' ++ [z] /\ xs = us ++ vs'.
Proof.
  intros H Hvs.
  destruct (exists_last Hvs) as (vs' & z' & ->).
  rewrite app_assoc in H. apply app_inj_tail in H. destruct H as [-> ->].
  now exists vs'.
Qed.


(** ** The instance of the upload component during a run *)

Lemma navigations_app es1 es2 :
  navigations (es1 ++ es2) = navigations es1 ++ navigations es2.
Proof. unfold navigations. apply flat_map_app. Qed.

Lemma trace_leaves_root host file upload extraction :
  Forall (fun path => path <> "/")
         (navigations (trace host file upload extraction)).
Proof.
  destruct file as [file|]; [|constructor].
  handler_paths; cbn;
    repeat (apply Forall_cons; [discriminate|]); apply Forall_nil.
Qed.

Lemma unmounted_stays es st :
  fst st = unmounted -> fst (apply_effects st es) = unmounted.
Proof.
  revert st. induction es as [|e es IH]; intros st Hst; [exact Hst|].
  cbn. apply IH. destruct e; cbn; rewrite ?Hst; cbn; try reflexivity.
  now destruct (String.eqb path "/").
Qed.

Lemma navigated_unmounts es st :
  Forall (fun path => path <> "/") (navigations es) ->
  navigations es <> [] ->
  fst (apply_effects st es) = unmounted.
Proof.
  revert st. induction es as [|e es IH]; intros st Hroot Hnav;
    [now contradiction Hnav|].
  destruct e;
    try (cbn in *; apply IH; assumption).
  cbn in Hroot. inversion Hroot as [|? ? Hpath _]; subst.
  change (apply_effects st (Navigate path :: es))
    with (apply_effects (apply_effect st (Navigate path)) es).
  apply unmounted_stays. cbn.
  destruct (String.eqb_spec path "/") as [E|_]; [contradiction|reflexivity].
Qed.

Lemma no_navigation_local es st :
  navigations es = [] ->
  mounted (fst st) = true ->
  mounted (fst (apply_effects st es)) = true /\
  (Forall keeps_flag es ->
   isProcessing (fst (apply_effects st es)) = isProcessing (fst st)) /\
  (Forall keeps_file es ->
   uploadedFile (fst (apply_effects st es)) = uploadedFile (fst st)).
Proof.
  revert st. induction es as [|e es IH]; intros st Hnav Hm;
    [repeat split; assumption|].
  assert (Hstep : navigations es = [] /\
                  mounted (fst (apply_effect st e)) = true /\
                  (keeps_flag e ->
                   isProcessing (fst (apply_effect st e))
                   = isProcessing (fst st)) /\
                  (keeps_file e ->
                   uploadedFile (fst (apply_effect st e))
                   = uploadedFile (fst st))).
  { destruct e; cbn in *; rewrite ?Hm; cbn;
      try discriminate; repeat split; tauto. }
  destruct Hstep as (Hnav' & Hm' & Hflag & Hfile).
  destruct (IH (apply_effect st e) Hnav' Hm') as (IH1 & IH2 & IH3).
  change (apply_effects st (e :: es))
    with (apply_effects (apply_effect st e) es).
  split; [exact IH1|]. split.
  - intros H. inversion H; subst. rewrite IH2 by assumption. now apply Hflag.
  - intros H. inversion H; subst. rewrite IH3 by assumption. now apply Hfile.
Qed.

Lemma keeps_file_shared es st :
  Forall keeps_file es ->
  obj_read "uploadedFile" (snd (apply_effects st es))
  = obj_read "uploadedFile" (snd st).
Proof.
  intros H. revert st.
  induction H as [|e es He _ IH]; intros st; [reflexivity|].
  change (apply_effects st (e :: es))
    with (apply_effects (apply_effect st e) es).
  rewrite IH. destruct e; cbn in *; try tauto.
  destruct He as (t & Ht & H1 & H2). destruct a as [ty p]. simpl in Ht.
  subst ty. unfold obj_read.
  rewrite appReducer_frame; try (intros ->; split; discriminate);
    try (intros ->; discriminate); try reflexivity; try assumption.
  intros E. contradiction.
Qed.

Lemma set_flag_mounted st b :
  mounted (fst st) = true ->
  isProcessing (fst (apply_effects st [SetIsProcessing b])) = b.
Proof. intros H. cbn. now rewrite H. Qed.

(** X4. A run of [handleProcess] without a file does nothing at all. A
    run with a file begins by switching the processing flag on and ends
    by switching it off, sets the flag nowhere in between and never sets
    the component's file. On a mounted instance, a run that opens no
    page leaves the flag off and the file as it was held; a run that
    opens a page leaves no instance behind, so that its last
    [setIsProcessing(false)] finds nothing to update. *)
Theorem handleProcess_releases_the_button :
  forall host file upload extraction st,
    mounted (fst st) = true ->
    let es := trace host file upload extraction in
    let st' := apply_effects st es in
    match file with
    | None => es = [] /\ st' = st
    | Some _ =>
        (exists middle,
            es = SetIsProcessing true :: middle ++ [SetIsProcessing false] /\
            Forall keeps_flag middle) /\
        Forall keeps_file es /\
        (navigations es = [] ->
         mounted (fst st') = true /\
         isProcessing (fst st') = false /\
         uploadedFile (fst st') = uploadedFile (fst st)) /\
        (navigations es <> [] -> fst st' = unmounted)
    end.
Proof.
  intros host [file|] upload extraction st Hm; cbv zeta;
    [|split; reflexivity].
  split; [apply trace_brackets|].
  split; [apply trace_keeps_file|].
  split.
  - intros Hnav.
    destruct (trace_brackets host file upload extraction)
      as (middle & Htrace & Hmiddle).
    pose proof (trace_keeps_file host (Some file) upload extraction) as Hkeep.
    destruct (no_navigation_local _ st Hnav Hm) as (H1 & _ & H3).
    split; [exact H1|]. split; [|now apply H3].
    rewrite Htrace in Hnav |- *.
    change (SetIsProcessing true :: middle ++ [SetIsProcessing false])
      with ((SetIsProcessing true :: middle) ++ [SetIsProcessing false])
      in Hnav |- *.
    rewrite navigations_app in Hnav. apply app_eq_nil in Hnav.
    destruct Hnav as [Hnav _].
    destruct (no_navigation_local _ st Hnav Hm) as (H1' & _ & _).
    rewrite apply_effects_app. now apply set_flag_mounted.
  - apply navigated_unmounts, trace_leaves_root.
Qed.

Lemma handleProcess_releases_the_button_witness :
  let st' :=
    apply_effects (mkLocal (Some a_file) false true, initialState)
      (trace a_host (Some a_file) (Rejects "Network Error")
         (Rejects "not reached")) in
  mounted (fst st') = true /\
  isProcessing (fst st') = false /\
  uploadedFile (fst st') = Some a_file.
Proof.
  apply (handleProcess_releases_the_button a_host (Some a_file)
           (Rejects "Network Error") (Rejects "not reached")
           (mkLocal (Some a_file) false true, initialState));
    reflexivity.
Defined.

(** X11. For the instance that is mounted with the initial state:
    however drops and the effects of running handlers interleave, as long
    as the instance is there, the file it holds and the [uploadedFile] of
    the shared state are the same file (or both none). Once a run has
    opened another page the two part: the instance and its file are gone,
    the shared state still holds the file. *)
Theorem uploaded_file_is_shared :
  (forall blocks,
      Forall block blocks ->
      let st' :=
        apply_effects (initialLocal, initialState) (List.concat blocks) in
      mounted (fst st') = true -> files_agree st') /\
  (forall host file upload extraction st,
      files_agree st ->
      uploadedFile (fst st) = Some file ->
      let es := trace host (Some file) upload extraction in
      let st' := apply_effects st es in
      navigations es <> [] ->
      fst st' = unmounted /\
      obj_read "uploadedFile" (snd st') = VFile file /\
      ~ files_agree st').
Proof.
  split.
  - intros blocks H. cbv zeta.
    assert (H0 : mounted (fst (initialLocal, initialState)) = true ->
                 files_agree (initialLocal, initialState))
      by reflexivity.
    revert H0. generalize (initialLocal, initialState).
    assert (Hgone : forall es (st : local * obj),
               mounted (fst st) = false ->
               mounted (fst (apply_effects st es)) = false).
    { induction es as [|e es IH]; intros st Hst; [exact Hst|].
      cbn. apply IH. destruct e; cbn; rewrite ?Hst; try reflexivity.
      now destruct (String.eqb path "/"). }
    induction H as [|es blocks Hes _ IH]; intros st Hst; [exact Hst|].
    change (List.concat (es :: blocks)) with (es ++ List.concat blocks).
    rewrite apply_effects_app. apply IH. intros Hm.
    destruct (mounted (fst st)) eqn:Hm0;
      [|now rewrite (Hgone es st Hm0) in Hm].
    specialize (Hst eq_refl).
    destruct Hes as [files|host file upload extraction e Hin].
    + destruct files as [|f rest]; [exact Hst|].
      unfold files_agree in *. cbn in *. rewrite Hm0. unfold appReducer; cbn.
      rewrite obj_read_set_other by discriminate. apply obj_read_set_same.
    + pose proof (trace_keeps_file host file upload extraction) as Hkeep.
      rewrite Forall_forall in Hkeep. specialize (Hkeep e Hin).
      unfold files_agree in *.
      rewrite (keeps_file_shared [e] st) by (constructor; [exact Hkeep|constructor]).
      rewrite Hst. destruct e; cbn in *; rewrite ?Hm0 in *; cbn;
        try reflexivity; try contradiction.
      destruct (String.eqb path "/"); [reflexivity|discriminate Hm].
  - intros host file upload extraction st Hst Hfile. cbv zeta. intros Hnav.
    assert (Hgone : fst (apply_effects st (trace host (Some file) upload extraction))
                    = unmounted)
      by (apply navigated_unmounts; [apply trace_leaves_root|exact Hnav]).
    assert (Hshared :
              obj_read "uploadedFile"
                (snd (apply_effects st (trace host (Some file) upload extraction)))
              = VFile file).
    { rewrite keeps_file_shared by apply trace_keeps_file.
      unfold files_agree in Hst. now rewrite Hst, Hfile. }
    split; [exact Hgone|]. split; [exact Hshared|].
    unfold files_agree. rewrite Hshared, Hgone. discriminate.
Qed.

Lemma uploaded_file_is_shared_witness :
  files_agree
    (apply_effects (initialLocal, initialState)
       (List.concat [ onDrop [a_file];
                 [Dispatch (mkAction (VStr "SET_PROCESSING_STATUS")
                              (VStr "uploading"))];
                 onDrop [] ])).
Proof.
  apply (proj1 uploaded_file_is_shared).
  - apply Forall_cons; [apply block_drop|].
    apply Forall_cons;
      [|apply Forall_cons; [apply (block_drop [])|apply Forall_nil]].
    apply (block_handler a_host (Some a_file) (Rejects "Network Error")
             (Rejects "not reached")).
    simpl. tauto.
  - reflexivity.
Defined.

(** X24. On a mounted instance that holds the file, from the first effect
    of a run to the one before its last the processing flag is on, so the
    process button is disabled, for as long as the run has opened no
    page; a run that ends without opening a page leaves the button
    enabled again, because the file is still held. Once the run has
    opened a page there is no instance and no button. *)
Theorem button_disabled_during_run :
  forall host file upload extraction st done rest,
    trace host (Some file) upload extraction = done ++ rest ->
    done <> [] ->
    mounted (fst st) = true ->
    uploadedFile (fst st) = Some file ->
    let instance := fst (apply_effects st done) in
    (navigations done = [] ->
     mounted instance = true /\
     (rest <> [] -> buttonDisabled instance = true) /\
     (rest = [] -> buttonDisabled instance = false)) /\
    (navigations done <> [] -> instance = unmounted).
Proof.
  intros host file upload extraction st done rest Hsplit Hdone Hm Hfile.
  cbv zeta.
  destruct (trace_brackets host file upload extraction)
    as (middle & Htrace & Hmiddle).
  pose proof (trace_keeps_file host (Some file) upload extraction) as Hkeep.
  pose proof (trace_leaves_root host (Some file) upload extraction) as Hroot.
  rewrite Hsplit in Hkeep, Hroot. apply Forall_app in Hkeep.
  destruct Hkeep as [Hkeep _].
  rewrite navigations_app in Hroot. apply Forall_app in Hroot.
  destruct Hroot as [Hroot _].
  split; [|now apply navigated_unmounts].
  intros Hnav.
  destruct (no_navigation_local done st Hnav Hm) as (H1 & _ & H3).
  split; [exact H1|].
  unfold buttonDisabled. rewrite (H3 Hkeep), Hfile.
  rewrite Hsplit in Htrace.
  destruct done as [|e done']; [congruence|].
  injection Htrace as -> Htail.
  change (apply_effects st (SetIsProcessing true :: done'))
    with (apply_effects (apply_effect st (SetIsProcessing true)) done').
  assert (Hm1 : mounted (fst (apply_effect st (SetIsProcessing true))) = true)
    by (cbn; now rewrite Hm).
  split.
  - intros Hrest. symmetry in Htail.
    destruct (app_split_last middle [] (SetIsProcessing false) done' rest
                Htail Hrest) as (rest' & -> & ->).
    apply Forall_app in Hmiddle. destruct Hmiddle as [Hdone' _].
    destruct (no_navigation_local done' _ Hnav Hm1) as (_ & H2 & _).
    rewrite (H2 Hdone'). cbn. now rewrite Hm.
  - intros ->. rewrite app_nil_r in Htail. subst done'.
    change (navigations (SetIsProcessing true :: middle ++ [SetIsProcessing false]))
      with (navigations (middle ++ [SetIsProcessing false])) in Hnav.
    rewrite navigations_app in Hnav. apply app_eq_nil in Hnav.
    destruct Hnav as [Hnav _].
    destruct (no_navigation_local middle _ Hnav Hm1) as (H1' & _ & _).
    rewrite apply_effects_app. now apply set_flag_mounted.
Qed.

Lemma button_disabled_during_run_witness :
  buttonDisabled
    (fst (apply_effects
            (mkLocal (Some a_file) false true, initialState)
            [ SetIsProcessing true;
              Dispatch (mkAction (VStr "SET_PROCESSING_STATUS")
                          (VStr "uploading")) ]))
  = true.
Proof.
  apply (button_disabled_during_run a_host a_file (Rejects "Network Error")
           (Rejects "not reached")
           (mkLocal (Some a_file) false true, initialState)
           [ SetIsProcessing true;
             Dispatch (mkAction (VStr "SET_PROCESSING_STATUS")
                         (VStr "uploading")) ]
           [ Post "/upload" (VObj [("file", VFile a_file)]);
             ConsoleError "Network Error";
             Dispatch (mkAction (VStr "SET_ERROR") (VStr "Network Error"));
             ToastError "Processing failed: Network Error";
             SetIsProcessing false ]).
  - reflexivity.
  - discriminate.
  - reflexivity.
  - reflexivity.
  - reflexivity.
  - discriminate.
Defined.
